(** * Chime voice client: session lifecycle and transcript streaming

    A shallow embedding of the React components of the repository,

    - [ChimeDemo]            (src/ChimeDemo.tsx), the conference-only client, and
    - [ChimeWithTranscribe]  (the transcription variant), the conference client
      with the microphone-to-WebSocket transcription pipeline,

    and the properties of their event handlers.  (The repository holds a
    third component, an earlier copy of [ChimeDemo]: it is the transcription
    variant without its transcription, and has no model of its own.)

    React state ([useState]) and refs ([useRef]) become fields of one record
    per component; the browser objects the handlers share (WebSockets,
    MediaRecorders, MediaStreams, FileReaders) live in object stores indexed
    by the order of their creation, so that two references to one socket
    (the [webSocket] ref and the [ws] captured by a recorder callback) are
    aliases of one object.  A handler is a function on that record; code
    inside [try]/[catch] runs in a state-and-exception monad, where a throw
    keeps the writes made before it.  What the platform decides (the outcome
    of [fetch], of [JSON.parse], of the SDK's constructors and calls, of
    [getUserMedia]) is an argument of the handler that consumes it. *)

From stdpp Require Import base option list strings.
From Stdlib Require Import ZArith DecimalString Floats.

Set Warnings "-register-all".
Set Default Proof Using "Type".

Open Scope Z_scope.

(** ** JavaScript values, as [JSON.parse] and the handlers see them *)

Inductive JSValue : Type :=
| JUndefined
| JNull
| JBool (b : bool)
| JNumber (d : float)
| JString (s : string)
| JArray (items : list JSValue)
| JObject (fields : list (string * JSValue)).

(** A thrown [Error]: its class name and its [message]. *)
Record Exn : Type := mkExn { exn_name : string; exn_message : string }.

Inductive Result (A : Type) : Type :=
| Ok (a : A)
| Throw (e : Exn).
Arguments Ok {A} a.
Arguments Throw {A} e.

Definition TypeError (msg : string) : Exn := mkExn "TypeError" msg.
Definition Error (msg : string) : Exn := mkExn "Error" msg.

(** Own-property lookup in an object literal: the first binding of the key. *)
Fixpoint assoc (k : string) (fields : list (string * JSValue)) : option JSValue :=
  match fields with
  | [] => None
  | (k', v) :: rest => if String.eqb k k' then Some v else assoc k rest
  end.

(** [v.k] for the property names the components read ([type], [isPartial],
    [transcript], [meetingResponse], [attendeeResponse]): none of them is
    inherited from a prototype, so the read is [undefined] on every value
    but an object that has the key, and a [TypeError] on [null] and
    [undefined]. *)
Definition get (v : JSValue) (k : string) : Result JSValue :=
  match v with
  | JUndefined => Throw (TypeError ("Cannot read properties of undefined (reading '" +:+ k +:+ "')"))
  | JNull => Throw (TypeError ("Cannot read properties of null (reading '" +:+ k +:+ "')"))
  | JObject fields => Ok (default JUndefined (assoc k fields))
  | _ => Ok JUndefined
  end.

(** ToBoolean. *)
Definition truthy (v : JSValue) : bool :=
  match v with
  | JUndefined | JNull => false
  | JBool b => b
  | JNumber d => negb (PrimFloat.eqb d 0%float || negb (PrimFloat.eqb d d))
  | JString s => negb (String.eqb s "")
  | JArray _ | JObject _ => true
  end.

(** [v === s] for a string literal [s]. *)
Definition strict_eq_string (v : JSValue) (s : string) : bool :=
  match v with
  | JString t => String.eqb t s
  | _ => false
  end.

(** Decimal rendering of an integer inside a template literal. *)
Definition string_of_Z (z : Z) : string := NilZero.string_of_int (Z.to_int z).

(** ** The console *)

Inductive Level : Type := LLog | LWarn | LError.

Inductive LogArg : Type :=
| NoArg
| ArgString (s : string)
| ArgBool (b : bool)
| ArgExn (e : Exn).

Record LogEntry : Type := mkLog { log_level : Level; log_text : string; log_arg : LogArg }.

(** ** State and exceptions *)

Module Eff.

Definition M (S A : Type) : Type := S -> Result A * S.

Definition ret {S A} (a : A) : M S A := fun s => (Ok a, s).

Definition bind {S A B} (m : M S A) (k : A -> M S B) : M S B :=
  fun s =>
    match m s with
    | (Ok a, s') => k a s'
    | (Throw e, s') => (Throw e, s')
    end.

Definition throw {S A} (e : Exn) : M S A := fun s => (Throw e, s).

(** [await p] / the value of an expression that may throw. *)
Definition lift {S A} (r : Result A) : M S A := fun s => (r, s).

(** A constructor or call that returns nothing and may throw. *)
Definition may_throw {S} (o : option Exn) : M S unit :=
  fun s => match o with None => (Ok tt, s) | Some e => (Throw e, s) end.

(** A state write. *)
Definition modify {S} (f : S -> S) : M S unit := fun s => (Ok tt, f s).

Definition gets {S A} (f : S -> A) : M S A := fun s => (Ok (f s), s).

(** [try { body } catch (err) { handler err }]. *)
Definition try_catch {S A} (body : M S A) (handler : Exn -> M S A) : M S A :=
  fun s =>
    match body s with
    | (Ok a, s') => (Ok a, s')
    | (Throw e, s') => handler e s'
    end.

(** [try { body } finally { fin }], with a [fin] that does not throw. *)
Definition finally {S A} (body : M S A) (fin : S -> S) : M S A :=
  fun s => let '(r, s') := body s in (r, fin s').

Definition when {S} (c : bool) (m : M S unit) : M S unit :=
  if c then m else ret tt.

(** [m] keeps [I]: started where [I] holds, it ends, by a return or by a
    throw, where [I] holds. *)
Definition keeps {S A} (I : S -> Prop) (m : M S A) : Prop :=
  forall s, I s -> I (m s).2.

End Eff.

Global Instance Eff_ret {S} : MRet (Eff.M S) := fun A => @Eff.ret S A.
Global Instance Eff_bind {S} : MBind (Eff.M S) := fun A B k m => @Eff.bind S A B m k.


(** ** The provisioning endpoint and the conferencing SDK

    Neither is code of the repository.  A [Response] is what [fetch] resolves
    to; [ok] is the Fetch standard's definition of [response.ok].  The SDK's
    constructors and methods are taken as they are called: each entry of
    [ChimeSDK] says whether the call throws (or rejects) and what it returns. *)

Record Response : Type := mkResponse { status : Z; body : string }.

Definition ok (r : Response) : bool := (200 <=? status r) && (status r <=? 299).

Record MediaDeviceInfo : Type := mkDevice { deviceId : string; label : string }.

(** [new MeetingSessionConfiguration(meetingResponse, attendeeResponse)]:
    the object remembers what it was built from. *)
Record MeetingSessionConfiguration : Type :=
  mkConfiguration { createMeetingResponse : JSValue; createAttendeeResponse : JSValue }.

Record MeetingSession : Type := mkSession { configuration : MeetingSessionConfiguration }.

Record ChimeSDK : Type := mkSDK {
  new_ConsoleLogger : option Exn;
  new_DefaultDeviceController : option Exn;
  new_MeetingSessionConfiguration : JSValue -> JSValue -> option Exn;
  new_DefaultMeetingSession : MeetingSessionConfiguration -> option Exn;
  bindAudioElement : option Exn;
  listAudioInputDevices : Result (list MediaDeviceInfo);
  (** [startAudioInput] in the transcription variant,
      [chooseAudioInputDevice] in src/ChimeDemo.tsx *)
  selectAudioInput : string -> option Exn;
  listAudioOutputDevices : Result (list MediaDeviceInfo);
  (** [chooseAudioOutput], resp. [chooseAudioOutputDevice] *)
  selectAudioOutput : string -> option Exn;
  subscribeToActiveSpeakerDetector : option Exn;
  patchRTCPeerConnectionStats : option Exn;
  audioVideo_start : option Exn
}.

(** What the component has done to [session.audioVideo]. *)
Record Conference : Type := mkConference {
  audioElementBound : bool;
  audioInput : option string;
  audioOutput : option string;
  observed : bool;
  startRequested : bool
}.

Definition no_conference : Conference := mkConference false None None false false.

Definition bind_element (c : Conference) : Conference :=
  mkConference true (audioInput c) (audioOutput c) (observed c) (startRequested c).
Definition choose_input (d : string) (c : Conference) : Conference :=
  mkConference (audioElementBound c) (Some d) (audioOutput c) (observed c) (startRequested c).
Definition choose_output (d : string) (c : Conference) : Conference :=
  mkConference (audioElementBound c) (audioInput c) (Some d) (observed c) (startRequested c).
Definition add_observer (c : Conference) : Conference :=
  mkConference (audioElementBound c) (audioInput c) (audioOutput c) true (startRequested c).
Definition request_start (c : Conference) : Conference :=
  mkConference (audioElementBound c) (audioInput c) (audioOutput c) (observed c) true.

(** [err.message || 'Unknown error'] *)
Definition message_or_unknown (err : Exn) : string :=
  if String.eqb (exn_message err) "" then "Unknown error" else exn_message err.

(** [MeetingSessionStatusCode]: a numeric enum of the SDK. *)
Definition MeetingSessionStatusCode : Type := Z.

(** *** The provisioning stage of [setupChime]

    Both components begin [setupChime] with the same statements: the fetch,
    the test of [response.ok], [response.json()], the destructuring of the
    two descriptors, and the four constructors that end in the session.
    [provisioning] is that prefix on its own: the exception it raises, or
    the session it builds. *)

Definition construct (sdk : ChimeSDK) (meetingResponse attendeeResponse : JSValue)
    : Result MeetingSession :=
  let configuration := mkConfiguration meetingResponse attendeeResponse in
  match new_ConsoleLogger sdk with
  | Some e => Throw e
  | None =>
      match new_DefaultDeviceController sdk with
      | Some e => Throw e
      | None =>
          match new_MeetingSessionConfiguration sdk meetingResponse attendeeResponse with
          | Some e => Throw e
          | None =>
              match new_DefaultMeetingSession sdk configuration with
              | Some e => Throw e
              | None => Ok (mkSession configuration)
              end
          end
      end
  end.

Definition provisioning (JSON_parse : string -> Result JSValue) (sdk : ChimeSDK)
    (fetched : Result Response) : Result MeetingSession :=
  match fetched with
  | Throw e => Throw e
  | Ok response =>
      if negb (ok response)
      then Throw (Error ("API failed with status " +:+ string_of_Z (status response)))
      else
        match JSON_parse (body response) with
        | Throw e => Throw e
        | Ok data =>
            match get data "meetingResponse" with
            | Throw e => Throw e
            | Ok meetingResponse =>
                match get data "attendeeResponse" with
                | Throw e => Throw e
                | Ok attendeeResponse => construct sdk meetingResponse attendeeResponse
                end
            end
        end
  end.

Definition raises {A} (r : Result A) : Prop :=
  match r with Throw _ => True | Ok _ => False end.

(** The payload has no [key]: the body is not JSON, or what it parses to has
    no such property. *)
Definition lacks (JSON_parse : string -> Result JSValue) (payload key : string) : Prop :=
  match JSON_parse payload with
  | Throw _ => True
  | Ok data =>
      match get data key with
      | Throw _ | Ok JUndefined => True
      | Ok _ => False
      end
  end.

(** What the endpoint returned is a failure in the words of the
    specification: a status outside 2xx, or a payload that lacks the meeting
    or the attendee descriptor.  A fetch that rejects returned nothing. *)
Definition endpoint_failure (JSON_parse : string -> Result JSValue) (fetched : Result Response)
    : Prop :=
  match fetched with
  | Throw _ => False
  | Ok response =>
      ok response = false \/
      lacks JSON_parse (body response) "meetingResponse" \/
      lacks JSON_parse (body response) "attendeeResponse"
  end.

(** ** src/ChimeDemo.tsx: the conference-only component *)

Module ChimeDemo.

Record State : Type := mkState {
  meetingSession : option MeetingSession;
  isLoading : bool;
  error : option string;
  isConnected : bool;
  conference : Conference;
  (** the one-second timer that will call [session.audioVideo.start()] *)
  startTimerArmed : bool;
  console : list LogEntry
}.

(** The first render: [useState(null)], [useState(true)], [useState(null)],
    [useState(false)]. *)
Definition initial : State := mkState None true None false no_conference false [].

Definition setMeetingSession (v : option MeetingSession) (s : State) : State :=
  mkState v (isLoading s) (error s) (isConnected s) (conference s) (startTimerArmed s) (console s).
Definition setIsLoading (v : bool) (s : State) : State :=
  mkState (meetingSession s) v (error s) (isConnected s) (conference s) (startTimerArmed s) (console s).
Definition setError (v : option string) (s : State) : State :=
  mkState (meetingSession s) (isLoading s) v (isConnected s) (conference s) (startTimerArmed s) (console s).
Definition setIsConnected (v : bool) (s : State) : State :=
  mkState (meetingSession s) (isLoading s) (error s) v (conference s) (startTimerArmed s) (console s).
Definition audioVideo (f : Conference -> Conference) (s : State) : State :=
  mkState (meetingSession s) (isLoading s) (error s) (isConnected s) (f (conference s))
          (startTimerArmed s) (console s).
Definition setTimeout (s : State) : State :=
  mkState (meetingSession s) (isLoading s) (error s) (isConnected s) (conference s) true (console s).
Definition print (lvl : Level) (text : string) (arg : LogArg) (s : State) : State :=
  mkState (meetingSession s) (isLoading s) (error s) (isConnected s) (conference s)
          (startTimerArmed s) (console s ++ [mkLog lvl text arg]).

Section Component.

(** [JSON.parse], behind [response.json()]. *)
Variable JSON_parse : string -> Result JSValue.
(** [MeetingSessionStatusCode.OK]. *)
Variable OK : MeetingSessionStatusCode.

(** The two device blocks of [setupChime]: list the devices, select the
    first one if there is one; a failure is a console warning. *)
Definition selectFirst (devices : Result (list MediaDeviceInfo))
    (select : string -> option Exn) (chosen : string -> Conference -> Conference)
    (okText warnText : string) : Eff.M State unit :=
  Eff.try_catch
    (audioDevices ← Eff.lift devices;
     match audioDevices with
     | first :: _ =>
         Eff.may_throw (select (deviceId first));;
         Eff.modify (audioVideo (chosen (deviceId first)));;
         Eff.modify (print LLog okText (ArgString (label first)))
     | [] => mret tt
     end)
    (fun err => Eff.modify (print LWarn warnText (ArgExn err))).

(** [setupChime], lines 21-150.  [fetched] is what the [fetch] of the
    provisioning endpoint settles to, [audioElement] whether the ref to
    the <audio> element is set. *)
Definition setupChime (sdk : ChimeSDK) (fetched : Result Response) (audioElement : bool)
    : Eff.M State unit :=
  Eff.finally
    (Eff.try_catch
       (Eff.modify (setIsLoading true);;
        response ← Eff.lift fetched;
        Eff.when (negb (ok response))
          (Eff.throw (Error ("API failed with status " +:+ string_of_Z (status response))));;
        data ← Eff.lift (JSON_parse (body response));
        meetingResponse ← Eff.lift (get data "meetingResponse");
        attendeeResponse ← Eff.lift (get data "attendeeResponse");
        Eff.may_throw (new_ConsoleLogger sdk);;
        Eff.may_throw (new_DefaultDeviceController sdk);;
        Eff.may_throw (new_MeetingSessionConfiguration sdk meetingResponse attendeeResponse);;
        let configuration := mkConfiguration meetingResponse attendeeResponse in
        Eff.may_throw (new_DefaultMeetingSession sdk configuration);;
        let session := mkSession configuration in
        Eff.modify (setMeetingSession (Some session));;
        Eff.when audioElement
          (Eff.may_throw (bindAudioElement sdk);;
           Eff.modify (audioVideo bind_element);;
           Eff.modify (print LLog "✅ Audio element bound successfully" NoArg));;
        selectFirst (listAudioInputDevices sdk) (selectAudioInput sdk) choose_input
          "✅ Microphone selected:" "⚠️ Microphone access issue:";;
        selectFirst (listAudioOutputDevices sdk) (selectAudioOutput sdk) choose_output
          "✅ Speaker selected:" "⚠️ Speaker selection issue:";;
        Eff.modify (audioVideo add_observer);;
        Eff.may_throw (subscribeToActiveSpeakerDetector sdk);;
        Eff.try_catch
          (Eff.may_throw (patchRTCPeerConnectionStats sdk))
          (fun err => Eff.modify (print LWarn "Could not patch stats collection:" (ArgExn err)));;
        Eff.modify setTimeout)
       (fun err =>
          Eff.modify (print LError "❌ Error setting up audio:" (ArgExn err));;
          Eff.modify (setError (Some (message_or_unknown err)))))
    (setIsLoading false).

(** The callback of [setTimeout(..., 1000)] that ends [setupChime]. *)
Definition startTimer (sdk : ChimeSDK) : Eff.M State unit :=
  Eff.try_catch
    (Eff.may_throw (audioVideo_start sdk);;
     Eff.modify (audioVideo request_start);;
     Eff.modify (print LLog "🎯 Starting audio connection..." NoArg))
    (fun err =>
       Eff.modify (print LError "Failed to start session:" (ArgExn err));;
       Eff.modify (setError (Some "Failed to start audio session"))).

(** The observer, lines 73-102. *)
Definition audioVideoDidStart (s : State) : State :=
  setError None
    (setIsConnected true
       (print LLog "✅ Audio connected successfully" NoArg s)).

Definition audioVideoDidStop (statusCode : MeetingSessionStatusCode) (s : State) : State :=
  let s1 := setIsConnected false
              (print LLog "🛑 Audio disconnected" (ArgString (string_of_Z statusCode)) s) in
  if negb (statusCode =? OK) then
    let errorMessage := "Connection error: " +:+ string_of_Z statusCode in
    setError (Some errorMessage) (print LError errorMessage NoArg s1)
  else s1.

Definition audioVideoDidStartConnecting (reconnecting : bool) (s : State) : State :=
  if reconnecting then print LLog "Attempting to reconnect..." NoArg s else s.

Definition connectionDidBecomePoor (s : State) : State :=
  print LWarn "⚠️ Connection quality is poor" NoArg s.

Definition connectionDidSuggestStopVideo (s : State) : State :=
  print LWarn "⚠️ Connection suggests stopping video" NoArg s.

End Component.

End ChimeDemo.

(** ** The transcription variant: conference plus transcript streaming *)

Module ChimeWithTranscribe.

(** [WebSocket.readyState] *)
Inductive ReadyState : Type := CONNECTING | OPEN | CLOSING | CLOSED.

Definition is_OPEN (r : ReadyState) : bool :=
  match r with OPEN => true | _ => false end.

(** [MediaRecorder.state] *)
Inductive RecordingState : Type := inactive | recording | paused.

Definition is_inactive (r : RecordingState) : bool :=
  match r with inactive => true | _ => false end.

(** A blob is its bytes; [blob.size] is their number. *)
Definition Blob : Type := list Byte.byte.

(** [new Blob(parts, { type: 'audio/webm' })] *)
Definition new_Blob (parts : list Blob) : Blob := concat parts.

(** What [ws.send] is given: [audioData] stands for the base64 text of the
    blob's bytes. *)
Record OutMessage : Type :=
  mkMessage { action : string; audioData : Blob; languageCode : string }.

(** A socket, with the [microphoneDeviceId] its handlers closed over. *)
Record WebSocket : Type := mkSocket {
  readyState : ReadyState;
  sent : list OutMessage;
  captured_microphoneDeviceId : option string
}.

(** A stream that [getUserMedia] returned; [live] until its tracks are
    stopped. *)
Record MediaStream : Type := mkStream { stream_deviceId : string; live : bool }.

(** A recorder, with the stream it records and the [ws] its
    [ondataavailable] closed over. *)
Record MediaRecorder : Type := mkRecorder {
  state : RecordingState;
  stream : nat;
  ws : nat;
  timeslice : option nat
}.

Record World : Type := mkWorld {
  (** [useState] *)
  meetingSession : option MeetingSession;
  isLoading : bool;
  error : option string;
  isConnected : bool;
  transcripts : list JSValue;
  latestTranscript : JSValue;
  isTranscribing : bool;
  microphoneDeviceId : option string;
  (** [useRef]: the [current] of each ref; a socket or recorder is named by
      its index in the store below *)
  webSocket : option nat;
  mediaRecorder : option nat;
  audioChunks : list Blob;
  (** the browser objects created so far *)
  sockets : list WebSocket;
  recorders : list MediaRecorder;
  streams : list MediaStream;
  (** [getUserMedia] calls not yet settled: the socket of the pending
      [startAudioCapture] and the device it asked for *)
  mediaRequests : list (nat * string);
  (** FileReaders still reading: the socket to send to and the blob *)
  readers : list (nat * Blob);
  (** [session.audioVideo] and the console *)
  conference : Conference;
  console : list LogEntry
}.

Definition setMeetingSession (v : option MeetingSession) (w : World) : World :=
  mkWorld v (isLoading w) (error w) (isConnected w) (transcripts w) (latestTranscript w)
    (isTranscribing w) (microphoneDeviceId w) (webSocket w) (mediaRecorder w) (audioChunks w)
    (sockets w) (recorders w) (streams w) (mediaRequests w) (readers w) (conference w)
    (console w).
Definition setIsLoading (v : bool) (w : World) : World :=
  mkWorld (meetingSession w) v (error w) (isConnected w) (transcripts w) (latestTranscript w)
    (isTranscribing w) (microphoneDeviceId w) (webSocket w) (mediaRecorder w) (audioChunks w)
    (sockets w) (recorders w) (streams w) (mediaRequests w) (readers w) (conference w)
    (console w).
Definition setError (v : option string) (w : World) : World :=
  mkWorld (meetingSession w) (isLoading w) v (isConnected w) (transcripts w)
    (latestTranscript w) (isTranscribing w) (microphoneDeviceId w) (webSocket w)
    (mediaRecorder w) (audioChunks w) (sockets w) (recorders w) (streams w) (mediaRequests w)
    (readers w) (conference w) (console w).
Definition setIsConnected (v : bool) (w : World) : World :=
  mkWorld (meetingSession w) (isLoading w) (error w) v (transcripts w) (latestTranscript w)
    (isTranscribing w) (microphoneDeviceId w) (webSocket w) (mediaRecorder w) (audioChunks w)
    (sockets w) (recorders w) (streams w) (mediaRequests w) (readers w) (conference w)
    (console w).
Definition setLatestTranscript (v : JSValue) (w : World) : World :=
  mkWorld (meetingSession w) (isLoading w) (error w) (isConnected w) (transcripts w) v
    (isTranscribing w) (microphoneDeviceId w) (webSocket w) (mediaRecorder w) (audioChunks w)
    (sockets w) (recorders w) (streams w) (mediaRequests w) (readers w) (conference w)
    (console w).
Definition setIsTranscribing (v : bool) (w : World) : World :=
  mkWorld (meetingSession w) (isLoading w) (error w) (isConnected w) (transcripts w)
    (latestTranscript w) v (microphoneDeviceId w) (webSocket w) (mediaRecorder w)
    (audioChunks w) (sockets w) (recorders w) (streams w) (mediaRequests w) (readers w)
    (conference w) (console w).
Definition setMicrophoneDeviceId (v : option string) (w : World) : World :=
  mkWorld (meetingSession w) (isLoading w) (error w) (isConnected w) (transcripts w)
    (latestTranscript w) (isTranscribing w) v (webSocket w) (mediaRecorder w) (audioChunks w)
    (sockets w) (recorders w) (streams w) (mediaRequests w) (readers w) (conference w)
    (console w).
Definition set_webSocket (v : option nat) (w : World) : World :=
  mkWorld (meetingSession w) (isLoading w) (error w) (isConnected w) (transcripts w)
    (latestTranscript w) (isTranscribing w) (microphoneDeviceId w) v (mediaRecorder w)
    (audioChunks w) (sockets w) (recorders w) (streams w) (mediaRequests w) (readers w)
    (conference w) (console w).
Definition set_mediaRecorder (v : option nat) (w : World) : World :=
  mkWorld (meetingSession w) (isLoading w) (error w) (isConnected w) (transcripts w)
    (latestTranscript w) (isTranscribing w) (microphoneDeviceId w) (webSocket w) v
    (audioChunks w) (sockets w) (recorders w) (streams w) (mediaRequests w) (readers w)
    (conference w) (console w).
Definition set_audioChunks (v : list Blob) (w : World) : World :=
  mkWorld (meetingSession w) (isLoading w) (error w) (isConnected w) (transcripts w)
    (latestTranscript w) (isTranscribing w) (microphoneDeviceId w) (webSocket w)
    (mediaRecorder w) v (sockets w) (recorders w) (streams w) (mediaRequests w) (readers w)
    (conference w) (console w).
Definition set_sockets (v : list WebSocket) (w : World) : World :=
  mkWorld (meetingSession w) (isLoading w) (error w) (isConnected w) (transcripts w)
    (latestTranscript w) (isTranscribing w) (microphoneDeviceId w) (webSocket w)
    (mediaRecorder w) (audioChunks w) v (recorders w) (streams w) (mediaRequests w)
    (readers w) (conference w) (console w).
Definition set_recorders (v : list MediaRecorder) (w : World) : World :=
  mkWorld (meetingSession w) (isLoading w) (error w) (isConnected w) (transcripts w)
    (latestTranscript w) (isTranscribing w) (microphoneDeviceId w) (webSocket w)
    (mediaRecorder w) (audioChunks w) (sockets w) v (streams w) (mediaRequests w) (readers w)
    (conference w) (console w).
Definition set_streams (v : list MediaStream) (w : World) : World :=
  mkWorld (meetingSession w) (isLoading w) (error w) (isConnected w) (transcripts w)
    (latestTranscript w) (isTranscribing w) (microphoneDeviceId w) (webSocket w)
    (mediaRecorder w) (audioChunks w) (sockets w) (recorders w) v (mediaRequests w)
    (readers w) (conference w) (console w).
Definition set_mediaRequests (v : list (nat * string)) (w : World) : World :=
  mkWorld (meetingSession w) (isLoading w) (error w) (isConnected w) (transcripts w)
    (latestTranscript w) (isTranscribing w) (microphoneDeviceId w) (webSocket w)
    (mediaRecorder w) (audioChunks w) (sockets w) (recorders w) (streams w) v (readers w)
    (conference w) (console w).
Definition set_readers (v : list (nat * Blob)) (w : World) : World :=
  mkWorld (meetingSession w) (isLoading w) (error w) (isConnected w) (transcripts w)
    (latestTranscript w) (isTranscribing w) (microphoneDeviceId w) (webSocket w)
    (mediaRecorder w) (audioChunks w) (sockets w) (recorders w) (streams w) (mediaRequests w)
    v (conference w) (console w).
(** [setTranscripts(prev => ...)]: the functional form of the state setter. *)
Definition setTranscripts (update : list JSValue -> list JSValue) (w : World) : World :=
  mkWorld (meetingSession w) (isLoading w) (error w) (isConnected w) (update (transcripts w))
    (latestTranscript w) (isTranscribing w) (microphoneDeviceId w) (webSocket w)
    (mediaRecorder w) (audioChunks w) (sockets w) (recorders w) (streams w) (mediaRequests w)
    (readers w) (conference w) (console w).
Definition audioVideo (f : Conference -> Conference) (w : World) : World :=
  mkWorld (meetingSession w) (isLoading w) (error w) (isConnected w) (transcripts w)
    (latestTranscript w) (isTranscribing w) (microphoneDeviceId w) (webSocket w)
    (mediaRecorder w) (audioChunks w) (sockets w) (recorders w) (streams w) (mediaRequests w)
    (readers w) (f (conference w)) (console w).
Definition print (lvl : Level) (text : string) (arg : LogArg) (w : World) : World :=
  mkWorld (meetingSession w) (isLoading w) (error w) (isConnected w) (transcripts w)
    (latestTranscript w) (isTranscribing w) (microphoneDeviceId w) (webSocket w)
    (mediaRecorder w) (audioChunks w) (sockets w) (recorders w) (streams w) (mediaRequests w)
    (readers w) (conference w) (console w ++ [mkLog lvl text arg]).

(** The first render. *)
Definition initial : World :=
  mkWorld None true None false [] (JString "") false None None None [] [] [] [] [] []
    no_conference [].

(** [!!microphoneDeviceId]: neither [null] nor the empty string. *)
Definition available (device : option string) : bool :=
  match device with
  | Some d => negb (String.eqb d "")
  | None => false
  end.

(** [recorder.stop()]; an inactive recorder raises InvalidStateError. *)
Definition MediaRecorder_stop (r : MediaRecorder) : Result MediaRecorder :=
  match state r with
  | inactive => Throw (mkExn "InvalidStateError" "The MediaRecorder's state is 'inactive'.")
  | _ => Ok (mkRecorder inactive (stream r) (ws r) (timeslice r))
  end.

(** [ws.close()], without arguments: never throws. *)
Definition WebSocket_close (s : WebSocket) : WebSocket :=
  match readyState s with
  | CONNECTING | OPEN => mkSocket CLOSING (sent s) (captured_microphoneDeviceId s)
  | CLOSING | CLOSED => s
  end.

(** [ws.send(m)]: throws while connecting, transmits when open, and
    discards the message silently otherwise. *)
Definition WebSocket_send (m : OutMessage) (s : WebSocket) : Result WebSocket :=
  match readyState s with
  | CONNECTING => Throw (mkExn "InvalidStateError" "Still in CONNECTING state.")
  | OPEN => Ok (mkSocket OPEN (sent s ++ [m]) (captured_microphoneDeviceId s))
  | CLOSING | CLOSED => Ok s
  end.

Definition set_readyState (r : ReadyState) (s : WebSocket) : WebSocket :=
  mkSocket r (sent s) (captured_microphoneDeviceId s).

(** What becomes of the [getUserMedia] call and of the [new MediaRecorder]
    that follows it. *)
Inductive CaptureOutcome : Type :=
| Rejected (e : Exn)
| Unsupported (e : Exn)
| Granted.

Section Component.

Variable JSON_parse : string -> Result JSValue.

(** The two device blocks of [setupChime]; the microphone block also
    keeps the device id in state. *)
Definition selectFirst (devices : Result (list MediaDeviceInfo))
    (select : string -> option Exn) (chosen : string -> World -> World)
    (okText warnText : string) : Eff.M World unit :=
  Eff.try_catch
    (audioDevices ← Eff.lift devices;
     match audioDevices with
     | first :: _ =>
         Eff.may_throw (select (deviceId first));;
         Eff.modify (chosen (deviceId first));;
         Eff.modify (print LLog okText (ArgString (label first)))
     | [] => mret tt
     end)
    (fun err => Eff.modify (print LWarn warnText (ArgExn err))).

(** [setupChime], lines 166-240. *)
Definition setupChime (sdk : ChimeSDK) (fetched : Result Response) (audioElement : bool)
    : Eff.M World unit :=
  Eff.finally
    (Eff.try_catch
       (Eff.modify (setIsLoading true);;
        response ← Eff.lift fetched;
        Eff.when (negb (ok response))
          (Eff.throw (Error ("API failed with status " +:+ string_of_Z (status response))));;
        data ← Eff.lift (JSON_parse (body response));
        meetingResponse ← Eff.lift (get data "meetingResponse");
        attendeeResponse ← Eff.lift (get data "attendeeResponse");
        Eff.may_throw (new_ConsoleLogger sdk);;
        Eff.may_throw (new_DefaultDeviceController sdk);;
        Eff.may_throw (new_MeetingSessionConfiguration sdk meetingResponse attendeeResponse);;
        let configuration := mkConfiguration meetingResponse attendeeResponse in
        Eff.may_throw (new_DefaultMeetingSession sdk configuration);;
        let session := mkSession configuration in
        Eff.modify (setMeetingSession (Some session));;
        Eff.when audioElement
          (Eff.may_throw (bindAudioElement sdk);;
           Eff.modify (audioVideo bind_element);;
           Eff.modify (print LLog "✅ Audio element bound" NoArg));;
        selectFirst (listAudioInputDevices sdk) (selectAudioInput sdk)
          (fun d w => setMicrophoneDeviceId (Some d) (audioVideo (choose_input d) w))
          "✅ Microphone selected:" "⚠️ Microphone access issue:";;
        selectFirst (listAudioOutputDevices sdk) (selectAudioOutput sdk)
          (fun d => audioVideo (choose_output d))
          "✅ Speaker selected:" "⚠️ Speaker selection issue:";;
        Eff.modify (audioVideo add_observer);;
        Eff.may_throw (audioVideo_start sdk);;
        Eff.modify (audioVideo request_start);;
        Eff.modify (print LLog "🎯 Starting audio connection" NoArg))
       (fun err =>
          Eff.modify (print LError "❌ Setup error:" (ArgExn err));;
          Eff.modify (setError (Some (message_or_unknown err)))))
    (setIsLoading false).

(** [stopTranscription], lines 308-322. *)
Definition stopTranscription : Eff.M World unit :=
  w ← Eff.gets id;
  match mediaRecorder w with
  | Some rid =>
      match recorders w !! rid with
      | Some r =>
          Eff.when (negb (is_inactive (state r)))
            (r' ← Eff.lift (MediaRecorder_stop r);
             Eff.modify (set_recorders (<[rid := r']> (recorders w))))
      | None => mret tt
      end
  | None => mret tt
  end;;
  match webSocket w with
  | Some sid =>
      match sockets w !! sid with
      | Some s =>
          Eff.when (is_OPEN (readyState s))
            (Eff.modify (set_sockets (<[sid := WebSocket_close s]> (sockets w))))
      | None => mret tt
      end;;
      Eff.modify (set_webSocket None)
  | None => mret tt
  end;;
  Eff.modify (setIsTranscribing false).

(** [startTranscription], lines 258-305; [new_WebSocket] says whether the
    constructor throws. *)
Definition startTranscription (new_WebSocket : option Exn) : Eff.M World unit :=
  w ← Eff.gets id;
  if negb (available (microphoneDeviceId w)) || negb (isConnected w) then
    Eff.modify (setError (Some "Microphone or connection not available"))
  else
    Eff.try_catch
      (Eff.may_throw new_WebSocket;;
       let sid := length (sockets w) in
       Eff.modify (set_sockets (sockets w ++ [mkSocket CONNECTING [] (microphoneDeviceId w)]));;
       Eff.modify (set_webSocket (Some sid)))
      (fun err =>
         Eff.modify (print LError "Failed to start transcription:" (ArgExn err));;
         Eff.modify (setError (Some "Failed to start transcription"))).

(** [toggleTranscription], lines 374-380. *)
Definition toggleTranscription (new_WebSocket : option Exn) : Eff.M World unit :=
  w ← Eff.gets id;
  if isTranscribing w then stopTranscription else startTranscription new_WebSocket.

(** [startAudioCapture(ws)] up to its [await]: the request for the
    microphone. *)
Definition startAudioCapture (sid : nat) (w : World) : World :=
  match sockets w !! sid with
  | Some s =>
      match captured_microphoneDeviceId s with
      | Some device =>
          if available (Some device)
          then set_mediaRequests (mediaRequests w ++ [(sid, device)]) w
          else w
      | None => w
      end
  | None => w
  end.

(** [startAudioCapture(ws)] after its [await], lines 329-370. *)
Definition startAudioCapture_resume (sid : nat) (device : string) (outcome : CaptureOutcome)
    : Eff.M World unit :=
  Eff.try_catch
    (match outcome with
     | Rejected e => Eff.throw e
     | Unsupported e =>
         Eff.modify (fun w => set_streams (streams w ++ [mkStream device true]) w);;
         Eff.throw e
     | Granted =>
         w ← Eff.gets id;
         let stream_id := length (streams w) in
         let rid := length (recorders w) in
         Eff.modify (set_streams (streams w ++ [mkStream device true]));;
         Eff.modify (set_audioChunks []);;
         Eff.modify
           (set_recorders (recorders w ++ [mkRecorder recording stream_id sid (Some 250%nat)]));;
         Eff.modify (set_mediaRecorder (Some rid))
     end)
    (fun err =>
       Eff.modify (print LError "Error capturing audio:" (ArgExn err));;
       Eff.modify (setError (Some "Error capturing audio for transcription"));;
       Eff.modify (setIsTranscribing false)).

(** [recorder.ondataavailable], lines 338-360, of the recorder [rid]. *)
Definition ondataavailable (rid : nat) (data : Blob) (w : World) : World :=
  match recorders w !! rid with
  | Some r =>
      let chunks :=
        if (0 <? length data)%nat then audioChunks w ++ [data] else audioChunks w in
      let blob := new_Blob chunks in
      let w1 := set_audioChunks [] w in
      match sockets w1 !! ws r with
      | Some s =>
          if is_OPEN (readyState s)
          then set_readers (readers w1 ++ [(ws r, blob)]) w1
          else w1
      | None => w1
      end
  | None => w
  end.

(** [(reader.result as string).split(',')[1]], line 351: the base64 text of
    the data URL that a completed read leaves in [reader.result]; after a
    read that failed or was aborted [reader.result] is [null], and the call
    raises a [TypeError]. *)
Definition base64_of_result (result : option Blob) : Result Blob :=
  match result with
  | Some payload => Ok payload
  | None => Throw (TypeError "Cannot read properties of null (reading 'split')")
  end.

(** [reader.onloadend], lines 350-357, of the [i]-th pending reader;
    [completed] tells whether the read has completed ([loadend] follows a
    failed read as well). *)
Definition onloadend (i : nat) (completed : bool) : Eff.M World unit :=
  w ← Eff.gets id;
  match readers w !! i with
  | Some (sid, blob) =>
      Eff.modify (set_readers (delete i (readers w)));;
      base64data ← Eff.lift (base64_of_result (if completed then Some blob else None));
      match sockets w !! sid with
      | Some s =>
          s' ← Eff.lift (WebSocket_send (mkMessage "startTranscription" base64data "en-US") s);
          Eff.modify (set_sockets (<[sid := s']> (sockets w)))
      | None => mret tt
      end
  | None => mret tt
  end.

(** [ws.onopen], lines 267-271. *)
Definition onopen (sid : nat) (w : World) : World :=
  startAudioCapture sid
    (setIsTranscribing true
       (print LLog "WebSocket connection established" NoArg w)).

(** [ws.onmessage], lines 273-287. *)
Definition onmessage (event_data : string) : Eff.M World unit :=
  Eff.try_catch
    (data ← Eff.lift (JSON_parse event_data);
     type ← Eff.lift (get data "type");
     if strict_eq_string type "transcript" then
       isPartial ← Eff.lift (get data "isPartial");
       Eff.when (negb (truthy isPartial))
         (transcript ← Eff.lift (get data "transcript");
          Eff.modify (setTranscripts (fun prev => prev ++ [transcript])));;
       transcript ← Eff.lift (get data "transcript");
       Eff.modify (setLatestTranscript transcript)
     else mret tt)
    (fun err => Eff.modify (print LError "Error processing transcript:" (ArgExn err))).

(** [ws.onerror], lines 289-293. *)
Definition onerror (w : World) : World :=
  setIsTranscribing false
    (setError (Some "Transcription service error")
       (print LError "WebSocket error:" NoArg w)).

(** [ws.onclose], lines 295-298. *)
Definition onclose (w : World) : World :=
  setIsTranscribing false (print LLog "WebSocket connection closed" NoArg w).

(** The observer, lines 214-228. *)
Definition audioVideoDidStart (w : World) : World :=
  setError None
    (setIsConnected true
       (print LLog "✅ Audio connected successfully" NoArg w)).

Definition audioVideoDidStop : Eff.M World unit :=
  Eff.modify (print LLog "🛑 Audio disconnected" NoArg);;
  Eff.modify (setIsConnected false);;
  stopTranscription.

Definition audioVideoDidStartConnecting (reconnecting : bool) (w : World) : World :=
  print LLog (if reconnecting then "Reconnecting..." else "Connecting...") NoArg w.

(** *** The event loop

    One event is one task of the browser: a click on the toggle button,
    a transition of a socket, the settling of a [getUserMedia] call, a
    chunk of a recorder, the end of a FileReader (after a completed read,
    [LoadEnd], or after a failed one, [LoadEndFailed]), a callback of the
    conference observer.  The platform's own part of each (the change of
    [readyState] before [onopen] and [onclose], the button that exists
    only while [isConnected]) is in [dispatch]; an exception that no
    handler catches ends the task where it was raised. *)
Inductive Event : Type :=
| Click (new_WebSocket : option Exn)
| Opened (sid : nat)
| Message (sid : nat) (event_data : string)
| Errored (sid : nat)
| Closed (sid : nat)
| MediaSettled (i : nat) (outcome : CaptureOutcome)
| DataAvailable (rid : nat) (data : Blob)
| LoadEnd (i : nat)
| LoadEndFailed (i : nat)
| DidStart
| DidStop
| DidStartConnecting (reconnecting : bool).

Definition dispatch (e : Event) : Eff.M World unit :=
  w ← Eff.gets id;
  match e with
  | Click new_WebSocket =>
      if isConnected w then toggleTranscription new_WebSocket else mret tt
  | Opened sid =>
      match sockets w !! sid with
      | Some (mkSocket CONNECTING out device) =>
          Eff.modify (set_sockets (<[sid := mkSocket OPEN out device]> (sockets w)));;
          Eff.modify (onopen sid)
      | _ => mret tt
      end
  | Message sid event_data =>
      match sockets w !! sid with
      | Some (mkSocket OPEN _ _) => onmessage event_data
      | _ => mret tt
      end
  | Errored sid =>
      match sockets w !! sid with
      | Some _ => Eff.modify onerror
      | None => mret tt
      end
  | Closed sid =>
      match sockets w !! sid with
      | Some (mkSocket CLOSED _ _) | None => mret tt
      | Some s =>
          Eff.modify (set_sockets (<[sid := set_readyState CLOSED s]> (sockets w)));;
          Eff.modify onclose
      end
  | MediaSettled i outcome =>
      match mediaRequests w !! i with
      | Some (sid, device) =>
          Eff.modify (set_mediaRequests (delete i (mediaRequests w)));;
          startAudioCapture_resume sid device outcome
      | None => mret tt
      end
  | DataAvailable rid data => Eff.modify (ondataavailable rid data)
  | LoadEnd i => onloadend i true
  | LoadEndFailed i => onloadend i false
  | DidStart => Eff.modify audioVideoDidStart
  | DidStop => audioVideoDidStop
  | DidStartConnecting reconnecting => Eff.modify (audioVideoDidStartConnecting reconnecting)
  end.

Definition step (w : World) (e : Event) : World := (dispatch e w).2.

Definition run (events : list Event) (w : World) : World := foldl step w events.

(** The messages of a socket, handed to [onmessage] in their order of
    arrival. *)
Definition deliver (messages : list string) (w : World) : World :=
  foldl (fun w event_data => (onmessage event_data w).2) w messages.

(** The text [event_data] parses to a transcript event
    [{type: 'transcript', isPartial, transcript}]. *)
Definition transcript_event (event_data : string) (isPartial : bool) (transcript : string)
    : Prop :=
  exists data,
    JSON_parse event_data = Ok data /\
    get data "type" = Ok (JString "transcript") /\
    get data "isPartial" = Ok (JBool isPartial) /\
    get data "transcript" = Ok (JString transcript).

(** The messages [messages] are, in order, the transcript events [events]
    (each a pair of [isPartial] and the text). *)
Definition arrivals (messages : list string) (events : list (bool * string)) : Prop :=
  Forall2 (fun m e => transcript_event m e.1 e.2) messages events.

(** The text is malformed: it does not parse, or what it parses to has
    no [type] equal to ['transcript']. *)
Definition malformed (event_data : string) : Prop :=
  match JSON_parse event_data with
  | Throw _ => True
  | Ok data =>
      match get data "type" with
      | Ok type => strict_eq_string type "transcript" = false
      | Throw _ => True
      end
  end.

End Component.

(** The sockets that are open. *)
Definition open_sockets (w : World) : list WebSocket :=
  filter (fun s => is_OPEN (readyState s) = true) (sockets w).

(** The streams that still hold the microphone. *)
Definition live_streams (w : World) : list MediaStream :=
  filter (fun m => live m = true) (streams w).

End ChimeWithTranscribe.

(** ** Test doubles

    A [JSON.parse] that knows the few texts the examples below use (and
    raises SyntaxError on every other text), two SDKs, and the worlds the
    examples start from. *)

Module Fixture.

Definition quote : string := String (Ascii.ascii_of_nat 34) "".

Definition str (s : string) : string := quote +:+ s +:+ quote.

Definition member (key value : string) : string := str key +:+ ":" +:+ value.

Definition transcript_text (isPartial : bool) (transcript : string) : string :=
  "{" +:+ member "type" (str "transcript") +:+ ","
      +:+ member "isPartial" (if isPartial then "true" else "false") +:+ ","
      +:+ member "transcript" (str transcript) +:+ "}".

Definition transcript_value (isPartial : bool) (transcript : string) : JSValue :=
  JObject [("type", JString "transcript"); ("isPartial", JBool isPartial);
           ("transcript", JString transcript)].

Definition ping_text : string := "{" +:+ member "type" (str "ping") +:+ "}".

Definition bare_transcript_text : string := "{" +:+ member "type" (str "transcript") +:+ "}".

Definition credentials_text : string :=
  "{" +:+ member "meetingResponse" "{}" +:+ "," +:+ member "attendeeResponse" "{}" +:+ "}".

Definition corpus : list (string * JSValue) :=
  [ (transcript_text true "hel", transcript_value true "hel");
    (transcript_text false "hello", transcript_value false "hello");
    (transcript_text false "world", transcript_value false "world");
    (ping_text, JObject [("type", JString "ping")]);
    (bare_transcript_text, JObject [("type", JString "transcript")]);
    (credentials_text,
     JObject [("meetingResponse", JObject []); ("attendeeResponse", JObject [])]);
    ("{}", JObject []);
    ("null", JNull) ].

Definition JSON_parse (text : string) : Result JSValue :=
  match assoc text corpus with
  | Some value => Ok value
  | None => Throw (mkExn "SyntaxError" "Unexpected token")
  end.

Definition devices_in : list MediaDeviceInfo := [mkDevice "mic-1" "Microphone"].
Definition devices_out : list MediaDeviceInfo := [mkDevice "spk-1" "Speaker"].

(** An SDK none of whose calls fails, whatever it is given. *)
Definition lenient : ChimeSDK :=
  mkSDK None None (fun _ _ => None) (fun _ => None) None
        (Ok devices_in) (fun _ => None) (Ok devices_out) (fun _ => None) None None None.

(** An SDK whose session constructor rejects a configuration built from an
    absent descriptor. *)
Definition strict : ChimeSDK :=
  mkSDK None None (fun _ _ => None)
        (fun c =>
           match createMeetingResponse c, createAttendeeResponse c with
           | JUndefined, _ | _, JUndefined =>
               Some (TypeError "Cannot read properties of null")
           | _, _ => None
           end)
        None (Ok devices_in) (fun _ => None) (Ok devices_out) (fun _ => None) None None None.

Definition OK : MeetingSessionStatusCode := 0.

(** The transcription variant once the conference is connected and the
    microphone "mic-1" was selected. *)
Definition connected : ChimeWithTranscribe.World :=
  ChimeWithTranscribe.audioVideoDidStart
    (ChimeWithTranscribe.setupChime JSON_parse lenient (Ok (mkResponse 200 credentials_text))
       true ChimeWithTranscribe.initial).2.

(** The toggle was clicked, the socket opened, the microphone was granted:
    socket 0 is open and recorder 0 records stream 0. *)
Definition transcribing : ChimeWithTranscribe.World :=
  ChimeWithTranscribe.run JSON_parse
    [ChimeWithTranscribe.Click None; ChimeWithTranscribe.Opened 0;
     ChimeWithTranscribe.MediaSettled 0 ChimeWithTranscribe.Granted]
    connected.

(** ... and the toggle was clicked again: transcription was stopped. *)
Definition stopped : ChimeWithTranscribe.World :=
  ChimeWithTranscribe.step JSON_parse transcribing (ChimeWithTranscribe.Click None).

(** ... or the connection to the transcription service was lost while
    recording. *)
Definition disconnected : ChimeWithTranscribe.World :=
  ChimeWithTranscribe.step JSON_parse transcribing (ChimeWithTranscribe.Closed 0).

(** A whole session: start, three chunks recorded and sent, a partial and
    a final transcript received. *)
Definition session : list ChimeWithTranscribe.Event :=
  [ChimeWithTranscribe.Click None; ChimeWithTranscribe.Opened 0;
   ChimeWithTranscribe.MediaSettled 0 ChimeWithTranscribe.Granted;
   ChimeWithTranscribe.DataAvailable 0 [Byte.x01]; ChimeWithTranscribe.LoadEnd 0;
   ChimeWithTranscribe.DataAvailable 0 [Byte.x02]; ChimeWithTranscribe.LoadEnd 0;
   ChimeWithTranscribe.DataAvailable 0 [Byte.x03]; ChimeWithTranscribe.LoadEnd 0;
   ChimeWithTranscribe.Message 0 (transcript_text true "hel");
   ChimeWithTranscribe.Message 0 (transcript_text false "hello")].

(** Two clicks on the toggle before the first socket has opened, then both
    sockets open. *)
Definition double_start : list ChimeWithTranscribe.Event :=
  [ChimeWithTranscribe.Click None; ChimeWithTranscribe.Click None;
   ChimeWithTranscribe.Opened 0; ChimeWithTranscribe.Opened 1].

End Fixture.

(** ** The cleanup of the effect

    The function that [useEffect] returns, run when the component unmounts.
    It closes over the [meetingSession] of the render that created the
    effect; the effect has no dependencies, so that render is the first one
    and the value is the initial [null].  [cleanup] takes the captured value
    as an argument, [unmount] is the cleanup as the component runs it.
    [audioVideo_stop] says whether [meetingSession.audioVideo.stop()]
    throws. *)

Module Teardown.

(** src/ChimeDemo.tsx, lines 155-164. *)
Definition ChimeDemo_cleanup (captured : option MeetingSession) (audioVideo_stop : option Exn)
    : Eff.M ChimeDemo.State unit :=
  match captured with
  | Some _ =>
      Eff.try_catch
        (Eff.may_throw audioVideo_stop;;
         Eff.modify (ChimeDemo.print LLog "🛑 Audio session stopped" NoArg))
        (fun err => Eff.modify (ChimeDemo.print LError "Error stopping session:" (ArgExn err)))
  | None => mret tt
  end.

Definition ChimeDemo_unmount : option Exn -> Eff.M ChimeDemo.State unit :=
  ChimeDemo_cleanup None.

(** The transcription variant, lines 244-254. *)
Definition cleanup (captured : option MeetingSession) (audioVideo_stop : option Exn)
    : Eff.M ChimeWithTranscribe.World unit :=
  match captured with
  | Some _ =>
      Eff.try_catch
        (Eff.may_throw audioVideo_stop;;
         Eff.modify (ChimeWithTranscribe.print LLog "🛑 Audio session stopped" NoArg))
        (fun err =>
           Eff.modify (ChimeWithTranscribe.print LError "Error stopping session:" (ArgExn err)))
  | None => mret tt
  end;;
  ChimeWithTranscribe.stopTranscription.

Definition unmount : option Exn -> Eff.M ChimeWithTranscribe.World unit :=
  cleanup None.

End Teardown.

(** ** States of the event loop *)

Module Reachable.
Import ChimeWithTranscribe.

(** Every FileReader still reading was started for a socket that exists and
    has left the connecting state. *)
Definition readers_ready (w : World) : Prop :=
  Forall
    (fun reader : nat * Blob =>
       exists s, sockets w !! reader.1 = Some s /\ readyState s <> CONNECTING)
    (readers w).

(** The part of the state that belongs to the conference. *)
Definition conference_state (w : World)
    : option MeetingSession * bool * bool * option string * Conference :=
  (meetingSession w, isLoading w, isConnected w, microphoneDeviceId w, conference w).

(** Every stream acquired so far is live. *)
Definition all_live (w : World) : Prop :=
  Forall (fun m => live m = true) (streams w).

End Reachable.

(** ** More test doubles *)

Module Scenario.

(** An SDK under which the microphone cannot be selected: [startAudioInput]
    rejects. *)
Definition deaf : ChimeSDK :=
  mkSDK None None (fun _ _ => None) (fun _ => None) None
        (Ok Fixture.devices_in) (fun _ => Some (mkExn "NotAllowedError" "Permission denied"))
        (Ok Fixture.devices_out) (fun _ => None) None None None.

(** An SDK under which no device can be listed or selected. *)
Definition deviceless : ChimeSDK :=
  mkSDK None None (fun _ _ => None) (fun _ => None) None
        (Throw (mkExn "NotFoundError" "Requested device not found")) (fun _ => None)
        (Ok Fixture.devices_out) (fun _ => Some (mkExn "NotAllowedError" "Permission denied"))
        None None None.

(** An SDK that cannot bind the audio element. *)
Definition mute : ChimeSDK :=
  mkSDK None None (fun _ _ => None) (fun _ => None)
        (Some (mkExn "Error" "Failed to bind audio element"))
        (Ok Fixture.devices_in) (fun _ => None) (Ok Fixture.devices_out) (fun _ => None)
        None None None.

Definition credentials : Result Response := Ok (mkResponse 200 Fixture.credentials_text).

(** Connected, but the microphone was refused during the setup. *)
Definition without_microphone : ChimeWithTranscribe.World :=
  ChimeWithTranscribe.audioVideoDidStart
    (ChimeWithTranscribe.setupChime Fixture.JSON_parse deaf credentials true
       ChimeWithTranscribe.initial).2.

(** The toggle was clicked and the socket has not opened yet. *)
Definition connecting : ChimeWithTranscribe.World :=
  ChimeWithTranscribe.step Fixture.JSON_parse Fixture.connected (ChimeWithTranscribe.Click None).

(** Transcribing, with one chunk handed to a FileReader that has not
    finished. *)
Definition reading : ChimeWithTranscribe.World :=
  ChimeWithTranscribe.step Fixture.JSON_parse Fixture.transcribing
    (ChimeWithTranscribe.DataAvailable 0 [Byte.x01]).

End Scenario.

(** * Properties *)

(** Unfolds the operations of the monad. *)
Ltac eff :=
  unfold mbind, mret, Eff_bind, Eff_ret, Eff.bind, Eff.ret, Eff.lift, Eff.modify, Eff.gets,
    Eff.try_catch, Eff.when, Eff.may_throw, Eff.throw, Eff.finally in *.

(** Runs the code on a concrete input: each conjunct by evaluation. *)
Ltac evaluate :=
  cbv zeta; repeat match goal with |- _ /\ _ => split end; vm_compute; reflexivity.

(** ** The transcript aggregator: [ws.onmessage] *)

Module Aggregator.
Import ChimeWithTranscribe.

Section Handler.

Variable JSON_parse : string -> Result JSValue.

(** One transcript event, exactly: the handler returns, a final text is
    appended to the history, the text becomes the current one, and nothing
    else changes. *)
Lemma onmessage_transcript (m : string) (isPartial : bool) (text : string) (w : World) :
  transcript_event JSON_parse m isPartial text ->
  onmessage JSON_parse m w =
    (Ok tt,
     setLatestTranscript (JString text)
       (if isPartial then w else setTranscripts (fun prev => prev ++ [JString text]) w)).
Proof.
  intros (data & Hparse & Htype & Hpartial & Htext).
  unfold onmessage. eff.
  rewrite Hparse, Htype. cbn. rewrite Hpartial, Htext.
  now destruct isPartial.
Qed.

Lemma deliver_cons (m : string) (ms : list string) (w : World) :
  deliver JSON_parse (m :: ms) w = deliver JSON_parse ms (onmessage JSON_parse m w).2.
Proof. reflexivity. Qed.

Lemma deliver_app (ms1 ms2 : list string) (w : World) :
  deliver JSON_parse (ms1 ++ ms2) w = deliver JSON_parse ms2 (deliver JSON_parse ms1 w).
Proof. unfold deliver. apply foldl_app. Qed.

(** History after a run of transcript events: the final texts, appended in
    their order of arrival. *)
Lemma deliver_transcripts (messages : list string) (events : list (bool * string)) :
  arrivals JSON_parse messages events ->
  forall w,
    transcripts (deliver JSON_parse messages w) =
      transcripts w ++ ((fun e => JString e.2) <$> filter (fun e => e.1 = false) events).
Proof.
  induction 1 as [|m [p t] ms es Hm _ IH]; intros w.
  - cbn. now rewrite app_nil_r.
  - rewrite deliver_cons, (onmessage_transcript _ _ _ _ Hm), IH. cbn [snd].
    destruct p; cbn.
    + reflexivity.
    + now rewrite <- app_assoc.
Qed.

(** The current text after a run of transcript events: the text of the last
    one. *)
Lemma deliver_latest (messages : list string) (events : list (bool * string)) :
  arrivals JSON_parse messages events ->
  forall w,
    latestTranscript (deliver JSON_parse messages w) =
      default (latestTranscript w) ((fun e => JString e.2) <$> last events).
Proof.
  induction 1 as [|m [p t] ms es Hm Hrest IH]; intros w; [reflexivity|].
  rewrite deliver_cons, (onmessage_transcript _ _ _ _ Hm), IH. cbn [snd].
  destruct es as [|e es']; [now destruct p|].
  rewrite last_cons_cons.
  destruct (last (e :: es')) eqn:E; [reflexivity|].
  apply last_None in E. discriminate.
Qed.

(** A malformed message, exactly: the handler returns; a text that does not
    parse, or that parses to [null], costs one line on the console; any
    other value is dropped without a trace. *)
Lemma onmessage_malformed (m : string) (w : World) :
  malformed JSON_parse m ->
  onmessage JSON_parse m w =
    (Ok tt,
     match JSON_parse m with
     | Throw err => print LError "Error processing transcript:" (ArgExn err) w
     | Ok data =>
         match get data "type" with
         | Throw err => print LError "Error processing transcript:" (ArgExn err) w
         | Ok _ => w
         end
     end).
Proof.
  unfold malformed, onmessage. eff. intros H.
  destruct (JSON_parse m) as [data|err]; [|reflexivity].
  destruct (get data "type") as [type|err]; [|reflexivity].
  now rewrite H.
Qed.

(** C1. For every incoming message that parses as
    [{type: 'transcript', isPartial, transcript}], whatever was received
    before it: the handler returns; the text of the message becomes the
    current transcript, so the current transcript is always the text of the
    most recently received event of either kind; a partial event changes
    nothing but the current transcript and leaves the history as it was; a
    final event appends its text to the history. *)
Theorem transcript_event_sets_current_and_history
    (earlier : list string) (m : string) (isPartial : bool) (text : string) (w : World) :
  transcript_event JSON_parse m isPartial text ->
  let before := deliver JSON_parse earlier w in
  let after := deliver JSON_parse (earlier ++ [m]) w in
  onmessage JSON_parse m before = (Ok tt, after) /\
  latestTranscript after = JString text /\
  (isPartial = true ->
     after = setLatestTranscript (JString text) before /\
     transcripts after = transcripts before) /\
  (isPartial = false -> transcripts after = transcripts before ++ [JString text]).
Proof.
  intros Hm before after. subst before after.
  rewrite deliver_app, deliver_cons, (onmessage_transcript _ _ _ _ Hm). cbn [snd deliver foldl].
  split; [reflexivity|].
  split; [now destruct isPartial|].
  split; intros ->; [split|]; reflexivity.
Qed.

(** C2. The history is append-only: after N final transcript events its
    length is its length before plus N, it is the history before followed
    by the N texts in their order of arrival (nothing is deduplicated or
    reordered), and every entry that was there is still at its place. *)
Theorem history_is_append_only
    (messages : list string) (events : list (bool * string)) (w : World) :
  arrivals JSON_parse messages events ->
  Forall (fun e => e.1 = false) events ->
  let after := deliver JSON_parse messages w in
  length (transcripts after) = (length (transcripts w) + length messages)%nat /\
  transcripts after = transcripts w ++ ((fun e => JString e.2) <$> events) /\
  (forall i entry, transcripts w !! i = Some entry -> transcripts after !! i = Some entry).
Proof.
  intros Harr Hfinal after. subst after.
  assert (Hall : filter (fun e : bool * string => e.1 = false) events = events).
  { clear Harr. induction Hfinal as [|e es He _ IH]; [reflexivity|].
    rewrite filter_cons_True by exact He. now rewrite IH. }
  rewrite (deliver_transcripts _ _ Harr), Hall.
  split; [|split].
  - rewrite length_app, length_fmap. now rewrite (Forall2_length _ _ _ Harr).
  - reflexivity.
  - intros i entry Hi. now apply lookup_app_l_Some.
Qed.

(** C7, as the code has it.  A malformed inbound message (one that does not
    parse, or that parses to a value whose [type] is not ['transcript']) is
    discarded: the handler returns, and the current transcript, the history,
    the sockets, the socket handle, the transcribing flag and the error
    state are what they were.  It is logged when the text does not parse or
    parses to [null]; a text that parses to any other value of another shape
    is dropped without a line on the console, the whole state being left as
    it was. *)
Theorem malformed_message_is_discarded (m : string) (w : World) :
  malformed JSON_parse m ->
  exists w',
    onmessage JSON_parse m w = (Ok tt, w') /\
    latestTranscript w' = latestTranscript w /\
    transcripts w' = transcripts w /\
    sockets w' = sockets w /\
    webSocket w' = webSocket w /\
    isTranscribing w' = isTranscribing w /\
    error w' = error w /\
    (forall err, JSON_parse m = Throw err ->
       w' = print LError "Error processing transcript:" (ArgExn err) w) /\
    (JSON_parse m = Ok JNull ->
       exists err, w' = print LError "Error processing transcript:" (ArgExn err) w) /\
    (forall data, JSON_parse m = Ok data -> data <> JNull -> data <> JUndefined -> w' = w).
Proof.
  intros Hm. eexists. split; [apply (onmessage_malformed _ _ Hm)|].
  destruct (JSON_parse m) as [data|err].
  - destruct data; cbn; repeat split; try congruence; eauto; try discriminate.
  - cbn. repeat split; try congruence; try discriminate.
Qed.

End Handler.

(** A partial "hel" and then a final "hello" leave "hello" as the current
    transcript and as the only entry of the history. *)
Lemma transcript_event_sets_current_and_history_witness :
  transcript_event Fixture.JSON_parse (Fixture.transcript_text false "hello") false "hello" /\
  let after :=
    deliver Fixture.JSON_parse
      [Fixture.transcript_text true "hel"; Fixture.transcript_text false "hello"]
      Fixture.connected in
  latestTranscript after = JString "hello" /\ transcripts after = [JString "hello"].
Proof.
  assert (H : transcript_event Fixture.JSON_parse
                (Fixture.transcript_text false "hello") false "hello").
  { exists (Fixture.transcript_value false "hello"). repeat split; reflexivity. }
  split; [exact H|].
  pose proof (transcript_event_sets_current_and_history Fixture.JSON_parse
                [Fixture.transcript_text true "hel"] _ _ _ Fixture.connected H)
    as (_ & Hlatest & _ & Hfinal).
  split; [exact Hlatest | exact (Hfinal eq_refl)].
Defined.

Lemma history_is_append_only_witness :
  let messages := [Fixture.transcript_text false "hello"; Fixture.transcript_text false "world"] in
  let events := [(false, "hello"); (false, "world")] in
  arrivals Fixture.JSON_parse messages events /\
  Forall (fun e : bool * string => e.1 = false) events /\
  transcripts (deliver Fixture.JSON_parse messages Fixture.connected) =
    [JString "hello"; JString "world"].
Proof.
  intros messages events.
  assert (Harr : arrivals Fixture.JSON_parse messages events).
  { repeat constructor.
    - exists (Fixture.transcript_value false "hello"). repeat split; reflexivity.
    - exists (Fixture.transcript_value false "world"). repeat split; reflexivity. }
  assert (Hfin : Forall (fun e : bool * string => e.1 = false) events).
  { repeat constructor. }
  split; [exact Harr|]. split; [exact Hfin|].
  exact (proj1 (proj2 (history_is_append_only Fixture.JSON_parse messages events
                         Fixture.connected Harr Hfin))).
Defined.

Lemma malformed_message_is_discarded_witness :
  malformed Fixture.JSON_parse "not json" /\
  exists w',
    onmessage Fixture.JSON_parse "not json" Fixture.connected = (Ok tt, w') /\
    latestTranscript w' = JString "" /\ transcripts w' = [].
Proof.
  assert (H : malformed Fixture.JSON_parse "not json") by exact I.
  split; [exact H|].
  destruct (malformed_message_is_discarded Fixture.JSON_parse "not json" Fixture.connected H)
    as (w' & Hrun & Hlatest & Hhistory & _).
  exists w'. split; [exact Hrun|]. split; [exact Hlatest | exact Hhistory].
Defined.

(** C7, as stated, fails: the text of the object [{type: 'ping'}] is
    malformed, and the handler leaves the whole state, console included, as
    it was: the message is discarded but not logged. *)
Lemma ping_is_discarded_without_a_log :
  malformed Fixture.JSON_parse Fixture.ping_text /\
  onmessage Fixture.JSON_parse Fixture.ping_text Fixture.connected = (Ok tt, Fixture.connected) /\
  console (onmessage Fixture.JSON_parse Fixture.ping_text Fixture.connected).2 =
    console Fixture.connected.
Proof. evaluate. Qed.

(** A message with [type: 'transcript'] and nothing else is not malformed for
    the handler: [undefined] is appended to the history and becomes the
    current transcript. *)
Example bare_transcript_is_taken :
  let w' := (onmessage Fixture.JSON_parse Fixture.bare_transcript_text Fixture.connected).2 in
  transcripts w' = [JUndefined] /\ latestTranscript w' = JUndefined.
Proof. evaluate. Qed.

End Aggregator.

(** ** Starting and stopping the transcription *)

Module Lifecycle.
Import ChimeWithTranscribe.

(** The cases of [stopTranscription]: the recorder ref and the recorder's
    state, the socket ref and the socket's state. *)
Ltac stop_cases w :=
  unfold stopTranscription; eff; cbn;
  destruct (mediaRecorder w) as [rid|] eqn:Hrec;
    [destruct (recorders w !! rid) as [[[] str wsid ts]|] eqn:Hr|];
  (destruct (webSocket w) as [sid|] eqn:Hws;
    [destruct (sockets w !! sid) as [[[] out dev]|] eqn:Hs|]);
  cbn.

(** [stopTranscription] returns, and writes nothing but the recorders, the
    sockets, the socket ref and the transcribing flag. *)
Lemma stopTranscription_frame (w : World) :
  exists w',
    stopTranscription w = (Ok tt, w') /\
    webSocket w' = None /\
    isTranscribing w' = false /\
    w' = setIsTranscribing false
           (set_webSocket (webSocket w') (set_sockets (sockets w') (set_recorders (recorders w') w))).
Proof.
  stop_cases w; (eexists; split; [reflexivity|]; repeat split; cbn; try assumption).
  all: now rewrite ?Hws.
Qed.

Lemma stopTranscription_idempotent (w : World) :
  stopTranscription (stopTranscription w).2 = stopTranscription w.
Proof.
  stop_cases w.
  all: rewrite ?Hrec, ?Hws, ?Hr, ?Hs; cbn.
  all: try reflexivity.
  all: rewrite list_lookup_insert_eq by (eapply lookup_lt_Some; eassumption); reflexivity.
Qed.

(** After [stopTranscription] the recorder of the ref is inactive. *)
Lemma stopTranscription_recorder (w : World) (i : nat) (recorder : MediaRecorder) :
  mediaRecorder (stopTranscription w).2 = Some i ->
  recorders (stopTranscription w).2 !! i = Some recorder ->
  state recorder = inactive.
Proof.
  stop_cases w; rewrite ?Hrec; intros [= <-]; try congruence.
  all: rewrite ?list_lookup_insert_eq by (eapply lookup_lt_Some; eassumption).
  all: try (intros [= <-]; reflexivity).
  all: rewrite Hr; intros [= <-]; reflexivity.
Qed.

(** What [stopTranscription] does to the sockets: it closes the socket of
    the ref when that socket is open, and writes no socket otherwise. *)
Lemma stopTranscription_sockets (w : World) :
  (forall i socket,
     webSocket w = Some i -> sockets w !! i = Some socket -> readyState socket = OPEN ->
     sockets (stopTranscription w).2 =
       <[i := mkSocket CLOSING (sent socket) (captured_microphoneDeviceId socket)]> (sockets w)) /\
  ((~ exists i socket,
        webSocket w = Some i /\ sockets w !! i = Some socket /\ readyState socket = OPEN) ->
   sockets (stopTranscription w).2 = sockets w).
Proof.
  stop_cases w; split.
  all: try (intros i socket Hi Hsocket Hopen; simplify_eq; cbn in *;
            first [discriminate | reflexivity]).
  all: try (intros _; reflexivity).
  all: intros Hnone; exfalso; apply Hnone; do 2 eexists; repeat split; eauto.
Qed.

(** What [stopTranscription] does to the recorders: it stops the recorder of
    the ref when that recorder is not inactive, and writes no recorder
    otherwise; the ref itself is kept. *)
Lemma stopTranscription_recorders (w : World) :
  mediaRecorder (stopTranscription w).2 = mediaRecorder w /\
  (forall i recorder,
     mediaRecorder w = Some i -> recorders w !! i = Some recorder ->
     state recorder <> inactive ->
     recorders (stopTranscription w).2 =
       <[i := mkRecorder inactive (stream recorder) (ws recorder) (timeslice recorder)]>
         (recorders w)) /\
  ((~ exists i recorder,
        mediaRecorder w = Some i /\ recorders w !! i = Some recorder /\
        state recorder <> inactive) ->
   recorders (stopTranscription w).2 = recorders w).
Proof.
  stop_cases w; (split; [now rewrite ?Hrec|]); split.
  all: try (intros i recorder Hi Hrecorder Hstate; simplify_eq; cbn in *;
            first [congruence | reflexivity]).
  all: try (intros _; reflexivity).
  all: intros Hnone; exfalso; apply Hnone; do 2 eexists; repeat split; eauto;
    cbn; discriminate.
Qed.

(** C9. [stopTranscription], in every state it is called in, returns and
    leaves the transcript history and the current transcript unchanged: it
    writes the recorders, the sockets, the socket ref and the transcribing
    flag, and nothing else. *)
Theorem stopTranscription_keeps_the_transcripts (w : World) :
  exists w',
    stopTranscription w = (Ok tt, w') /\
    transcripts w' = transcripts w /\
    latestTranscript w' = latestTranscript w /\
    meetingSession w' = meetingSession w /\
    isLoading w' = isLoading w /\
    error w' = error w /\
    isConnected w' = isConnected w /\
    microphoneDeviceId w' = microphoneDeviceId w /\
    mediaRecorder w' = mediaRecorder w /\
    audioChunks w' = audioChunks w /\
    streams w' = streams w /\
    mediaRequests w' = mediaRequests w /\
    readers w' = readers w /\
    conference w' = conference w /\
    console w' = console w.
Proof.
  destruct (stopTranscription_frame w) as (w' & Hrun & _ & _ & Hw').
  exists w'. split; [exact Hrun|].
  rewrite Hw'. cbn. repeat split.
Qed.

(** C3, as the code has it.  [stopTranscription] on a session that was never
    started, or that was already stopped (on any state at all), raises no
    error and is idempotent: a second call returns the state the first one
    left.  Afterwards the socket ref is empty, the transcribing flag is off
    and the recorder of the ref is inactive.  The media streams are left
    exactly as they were: a session that acquired none leaves none behind,
    and a stream that [startAudioCapture] acquired is as live after the stop
    as it was before.  What the stop does is written out against the state
    it started from: the recorder ref is kept; the recorder of the ref, when
    it is not inactive, is made inactive and nothing else of it or of any
    other recorder changes, and with no such recorder the recorders are what
    they were; the socket of the ref, when it is open, is closing afterwards
    with the messages it had and no other socket changes, and with no open
    socket in the ref the sockets are what they were. *)
Theorem stopTranscription_is_safe_and_idempotent (w : World) :
  exists w',
    stopTranscription w = (Ok tt, w') /\
    stopTranscription w' = (Ok tt, w') /\
    webSocket w' = None /\
    isTranscribing w' = false /\
    (forall i recorder,
       mediaRecorder w' = Some i -> recorders w' !! i = Some recorder ->
       state recorder = inactive) /\
    streams w' = streams w /\
    live_streams w' = live_streams w /\
    mediaRecorder w' = mediaRecorder w /\
    (forall i recorder,
       mediaRecorder w = Some i -> recorders w !! i = Some recorder ->
       state recorder <> inactive ->
       recorders w' =
         <[i := mkRecorder inactive (stream recorder) (ws recorder) (timeslice recorder)]>
           (recorders w)) /\
    ((~ exists i recorder,
          mediaRecorder w = Some i /\ recorders w !! i = Some recorder /\
          state recorder <> inactive) ->
     recorders w' = recorders w) /\
    (forall i socket,
       webSocket w = Some i -> sockets w !! i = Some socket -> readyState socket = OPEN ->
       sockets w' =
         <[i := mkSocket CLOSING (sent socket) (captured_microphoneDeviceId socket)]>
           (sockets w)) /\
    ((~ exists i socket,
          webSocket w = Some i /\ sockets w !! i = Some socket /\ readyState socket = OPEN) ->
     sockets w' = sockets w).
Proof.
  destruct (stopTranscription_frame w) as (w' & Hrun & Href & Hflag & Hw').
  pose proof (stopTranscription_idempotent w) as Hidem.
  pose proof (stopTranscription_recorder w) as Hrecorder.
  destruct (stopTranscription_recorders w) as (Hkept & Hstops & Hrecorders).
  destruct (stopTranscription_sockets w) as (Hcloses & Hsockets).
  rewrite Hrun in Hidem, Hrecorder, Hkept, Hstops, Hrecorders, Hcloses, Hsockets.
  cbn [snd] in Hidem, Hrecorder, Hkept, Hstops, Hrecorders, Hcloses, Hsockets.
  exists w'.
  split; [exact Hrun|]. split; [exact Hidem|]. split; [exact Href|].
  split; [exact Hflag|]. split; [exact Hrecorder|].
  split; [rewrite Hw'; reflexivity|].
  split; [unfold live_streams; rewrite Hw'; reflexivity|].
  split; [exact Hkept|]. split; [exact Hstops|]. split; [exact Hrecorders|].
  split; [exact Hcloses | exact Hsockets].
Qed.

(** C3, as stated, fails on a session that was already stopped: a further
    [stopTranscription] returns and changes nothing, and the stream that the
    capture acquired on "mic-1" is still live: the microphone is not
    released. *)
Lemma stop_does_not_release_the_microphone :
  stopTranscription Fixture.stopped = (Ok tt, Fixture.stopped) /\
  isTranscribing Fixture.stopped = false /\
  webSocket Fixture.stopped = None /\
  recorders Fixture.stopped = [mkRecorder inactive 0 0 (Some 250%nat)] /\
  live_streams (stopTranscription Fixture.stopped).2 = [mkStream "mic-1" true].
Proof. evaluate. Qed.

(** A session that was never started: the stop changes nothing at all. *)
Example stop_before_any_start :
  stopTranscription Fixture.connected = (Ok tt, Fixture.connected) /\
  live_streams Fixture.connected = [].
Proof. evaluate. Qed.

End Lifecycle.

(** ** The capture pipeline: [recorder.ondataavailable] *)

Module Capture.
Import ChimeWithTranscribe.

(** With the transport not open, the callback only empties the chunk
    buffer. *)
Lemma ondataavailable_not_open (rid : nat) (r : MediaRecorder) (data : Blob) (w : World) :
  recorders w !! rid = Some r ->
  (forall s, sockets w !! ws r = Some s -> is_OPEN (readyState s) = false) ->
  ondataavailable rid data w = set_audioChunks [] w.
Proof.
  intros Hr Hclosed. unfold ondataavailable. rewrite Hr. cbn.
  destruct (sockets w !! ws r) as [s|] eqn:Hs; [|reflexivity].
  now rewrite (Hclosed s eq_refl).
Qed.

(** With the transport open and the buffer empty, the callback hands the
    chunk, and nothing but the chunk, to a FileReader. *)
Lemma ondataavailable_open (rid : nat) (r : MediaRecorder) (s : WebSocket) (data : Blob)
    (w : World) :
  recorders w !! rid = Some r ->
  sockets w !! ws r = Some s ->
  is_OPEN (readyState s) = true ->
  audioChunks w = [] ->
  readers (ondataavailable rid data w) = readers w ++ [(ws r, data)].
Proof.
  intros Hr Hs Hopen Hempty. unfold ondataavailable. rewrite Hr. cbn.
  rewrite Hs, Hopen, Hempty. cbn.
  destruct data as [|b data]; cbn; [reflexivity|].
  unfold new_Blob. cbn. now rewrite app_nil_r.
Qed.

(** C5. If the transport is not open when a chunk arrives, the chunk is
    dropped: the chunk buffer is emptied, nothing is sent on any socket, no
    FileReader is started, the error state and the console are untouched.
    The recorder is untouched too (it keeps its state and its timeslice),
    as it is by an error or a close of the socket, so the capture goes on
    whatever the transport does; and the dropped chunk is not kept for
    later: should the transport be open at the next chunk, that chunk alone
    is read and sent. *)
Theorem chunk_is_dropped_when_transport_is_not_open
    (rid : nat) (r : MediaRecorder) (data : Blob) (w : World) :
  recorders w !! rid = Some r ->
  (forall s, sockets w !! ws r = Some s -> is_OPEN (readyState s) = false) ->
  let w' := ondataavailable rid data w in
  w' = set_audioChunks [] w /\
  audioChunks w' = [] /\
  readers w' = readers w /\
  sockets w' = sockets w /\
  error w' = error w /\
  console w' = console w /\
  recorders w' = recorders w /\
  recorders (onerror w') = recorders w /\
  recorders (onclose w') = recorders w /\
  (forall transport s next,
     transport !! ws r = Some s -> is_OPEN (readyState s) = true ->
     readers (ondataavailable rid next (set_sockets transport w')) =
       readers w ++ [(ws r, next)]).
Proof.
  intros Hr Hclosed w'. subst w'.
  rewrite (ondataavailable_not_open _ _ _ _ Hr Hclosed).
  repeat split.
  intros transport s next Hs Hopen.
  now rewrite (ondataavailable_open rid r s).
Qed.

Lemma chunk_is_dropped_when_transport_is_not_open_witness :
  let r := mkRecorder recording 0 0 (Some 250%nat) in
  recorders Fixture.disconnected !! 0%nat = Some r /\
  (forall s, sockets Fixture.disconnected !! ws r = Some s -> is_OPEN (readyState s) = false) /\
  ondataavailable 0 [Byte.x01] Fixture.disconnected = set_audioChunks [] Fixture.disconnected.
Proof.
  intros r.
  assert (Hr : recorders Fixture.disconnected !! 0%nat = Some r) by (vm_compute; reflexivity).
  assert (Hclosed : forall s, sockets Fixture.disconnected !! ws r = Some s ->
                              is_OPEN (readyState s) = false).
  { intros s Hs. vm_compute in Hs. injection Hs as <-. reflexivity. }
  split; [exact Hr|]. split; [exact Hclosed|].
  exact (proj1 (chunk_is_dropped_when_transport_is_not_open 0 r [Byte.x01]
                  Fixture.disconnected Hr Hclosed)).
Defined.

End Capture.

(** ** One transport at a time? *)

Module Exclusion.
Import ChimeWithTranscribe.

(** [startTranscription] with a microphone and a connection: a new socket
    is created and the ref is pointed at it; the sockets that were there are
    neither closed nor looked at. *)
Lemma startTranscription_adds_a_socket (w : World) :
  available (microphoneDeviceId w) = true ->
  isConnected w = true ->
  startTranscription None w =
    (Ok tt,
     set_webSocket (Some (length (sockets w)))
       (set_sockets (sockets w ++ [mkSocket CONNECTING [] (microphoneDeviceId w)]) w)).
Proof.
  intros Hmic Hconn. unfold startTranscription. eff. cbn.
  now rewrite Hmic, Hconn.
Qed.

(** C6, on the code: two clicks on the toggle before the first socket has
    opened start two transports.  Once both have opened there are two open
    sockets and two pending captures, the ref names the second socket only;
    a click then stops the second and leaves the first open, with no handle
    to it. *)
Theorem double_start_leaves_two_open_sockets :
  let w := run Fixture.JSON_parse Fixture.double_start Fixture.connected in
  let w' := step Fixture.JSON_parse w (Click None) in
  length (sockets w) = 2%nat /\
  length (open_sockets w) = 2%nat /\
  webSocket w = Some 1%nat /\
  mediaRequests w = [(0%nat, "mic-1"); (1%nat, "mic-1")] /\
  error w = None /\
  webSocket w' = None /\
  isTranscribing w' = false /\
  (readyState <$> sockets w') = [OPEN; CLOSING].
Proof. evaluate. Qed.

End Exclusion.

(** ** Invariants of monadic code *)

Module EffFacts.

Section Keeps.

Context {S : Type} (I : S -> Prop).

Lemma keeps_ret {A} (a : A) : Eff.keeps I (mret a : Eff.M S A).
Proof. intros s H. exact H. Qed.

Lemma keeps_lift {A} (r : Result A) : Eff.keeps I (Eff.lift r : Eff.M S A).
Proof. intros s H. exact H. Qed.

Lemma keeps_throw {A} (e : Exn) : Eff.keeps I (Eff.throw e : Eff.M S A).
Proof. intros s H. exact H. Qed.

Lemma keeps_may_throw (o : option Exn) : Eff.keeps I (Eff.may_throw o : Eff.M S unit).
Proof. intros s H. unfold Eff.may_throw. now destruct o. Qed.

Lemma keeps_gets {A} (f : S -> A) : Eff.keeps I (Eff.gets f).
Proof. intros s H. exact H. Qed.

Lemma keeps_modify (f : S -> S) : (forall s, I s -> I (f s)) -> Eff.keeps I (Eff.modify f).
Proof. intros Hf s H. exact (Hf s H). Qed.

Lemma keeps_bind {A B} (m : Eff.M S A) (k : A -> Eff.M S B) :
  Eff.keeps I m -> (forall a, Eff.keeps I (k a)) -> Eff.keeps I (m ≫= k).
Proof.
  intros Hm Hk s H. specialize (Hm s H). eff.
  destruct (m s) as [[a|e] s']; cbn in *; [now apply Hk | exact Hm].
Qed.

Lemma keeps_try_catch {A} (body : Eff.M S A) (handler : Exn -> Eff.M S A) :
  Eff.keeps I body -> (forall e, Eff.keeps I (handler e)) ->
  Eff.keeps I (Eff.try_catch body handler).
Proof.
  intros Hb Hh s H. specialize (Hb s H). eff.
  destruct (body s) as [[a|e] s']; cbn in *; [exact Hb | now apply Hh].
Qed.

Lemma keeps_when (c : bool) (m : Eff.M S unit) :
  Eff.keeps I m -> Eff.keeps I (Eff.when c m).
Proof. intros Hm. destruct c; [exact Hm | apply keeps_ret]. Qed.

Lemma keeps_finally {A} (body : Eff.M S A) (fin : S -> S) :
  Eff.keeps I body -> (forall s, I s -> I (fin s)) -> Eff.keeps I (Eff.finally body fin).
Proof.
  intros Hb Hf s H. specialize (Hb s H). unfold Eff.finally.
  destruct (body s) as [r s']. now apply Hf.
Qed.

End Keeps.

End EffFacts.

(** Proves that a block of monadic code keeps an invariant which each of
    its state writes keeps by computation. *)
Ltac keeps :=
  repeat first
    [ apply EffFacts.keeps_bind; [|intros ?]
    | apply EffFacts.keeps_try_catch; [|intros ?]
    | apply EffFacts.keeps_finally; [|intros ? ?; assumption]
    | apply EffFacts.keeps_when
    | apply EffFacts.keeps_modify; intros ? ?; assumption
    | apply EffFacts.keeps_may_throw
    | apply EffFacts.keeps_lift
    | apply EffFacts.keeps_throw
    | apply EffFacts.keeps_gets
    | apply EffFacts.keeps_ret
    | match goal with
      | |- Eff.keeps _ (match ?x with _ => _ end) => destruct x
      | |- Eff.keeps _ (if ?x then _ else _) => destruct x
      end ].

(** ** Invariants of the event loop *)

Module Invariants.
Import ChimeWithTranscribe.

(** Walks through a handler: [known] closes the calls that have a lemma of
    their own, [write] the state writes. *)
Ltac through known write :=
  repeat first
    [ known
    | apply EffFacts.keeps_bind; [|intros ?]
    | apply EffFacts.keeps_try_catch; [|intros ?]
    | apply EffFacts.keeps_when
    | apply EffFacts.keeps_may_throw
    | apply EffFacts.keeps_lift
    | apply EffFacts.keeps_throw
    | apply EffFacts.keeps_gets
    | apply EffFacts.keeps_ret
    | apply EffFacts.keeps_modify; intros ? ?;
      unfold onopen, onerror, onclose, ondataavailable, startAudioCapture,
        audioVideoDidStart, audioVideoDidStartConnecting;
      repeat case_match; cbn; write
    | match goal with
      | |- Eff.keeps _ (match ?x with _ => _ end) => destruct x
      | |- Eff.keeps _ (if ?x then _ else _) => destruct x
      end ].

Section Loop.

Variable JSON_parse : string -> Result JSValue.

(** No event takes an entry out of the history or moves one. *)
Lemma dispatch_keeps_history (h : list JSValue) (e : Event) :
  Eff.keeps (fun w => h `prefix_of` transcripts w) (dispatch JSON_parse e).
Proof.
  unfold dispatch, toggleTranscription, startTranscription, stopTranscription,
    startAudioCapture_resume, onloadend, onmessage, audioVideoDidStop.
  through ltac:(fail) ltac:(first [assumption | now apply prefix_app_r]).
Qed.

Lemma run_keeps_history (events : list Event) (w : World) :
  transcripts w `prefix_of` transcripts (run JSON_parse events w).
Proof.
  revert w. induction events as [|e events IH]; intros w; [reflexivity|].
  cbn. etransitivity; [|apply IH].
  now apply (dispatch_keeps_history (transcripts w) e w).
Qed.

(** No event touches a media stream once it exists: streams are acquired
    and never stopped. *)
Lemma startAudioCapture_resume_keeps_streams (acquired : list MediaStream)
    (sid : nat) (device : string) (outcome : CaptureOutcome) :
  Eff.keeps (fun w => acquired `prefix_of` streams w)
    (startAudioCapture_resume sid device outcome).
Proof.
  intros w H. unfold startAudioCapture_resume. eff.
  destruct outcome; cbn; try assumption; now apply prefix_app_r.
Qed.

Lemma dispatch_keeps_streams (acquired : list MediaStream) (e : Event) :
  Eff.keeps (fun w => acquired `prefix_of` streams w) (dispatch JSON_parse e).
Proof.
  unfold dispatch, toggleTranscription, startTranscription, stopTranscription,
    onloadend, onmessage, audioVideoDidStop.
  through ltac:(apply startAudioCapture_resume_keeps_streams) ltac:(assumption).
Qed.

Lemma run_keeps_streams (events : list Event) (w : World) :
  streams w `prefix_of` streams (run JSON_parse events w).
Proof.
  revert w. induction events as [|e events IH]; intros w; [reflexivity|].
  cbn. etransitivity; [|apply IH].
  now apply (dispatch_keeps_streams (streams w) e w).
Qed.

(** A stream that is live stays live, whatever happens next. *)
Lemma live_stream_stays_live (events : list Event) (w : World) (i : nat) (m : MediaStream) :
  streams w !! i = Some m ->
  streams (run JSON_parse events w) !! i = Some m.
Proof.
  intros Hi. destruct (run_keeps_streams events w) as [more ->].
  now apply lookup_app_l_Some.
Qed.

End Loop.

(** A whole session, end to end: the three chunks went out on the socket in
    their order, the current transcript is the final text and the history
    holds it once. *)
Example session_end_to_end :
  let w := run Fixture.JSON_parse Fixture.session Fixture.connected in
  (sent <$> sockets w) =
    [[mkMessage "startTranscription" [Byte.x01] "en-US";
      mkMessage "startTranscription" [Byte.x02] "en-US";
      mkMessage "startTranscription" [Byte.x03] "en-US"]] /\
  latestTranscript w = JString "hello" /\
  transcripts w = [JString "hello"] /\
  isTranscribing w = true /\
  error w = None.
Proof. evaluate. Qed.

End Invariants.

(** ** The conference: setup and observer *)

Module Conference.

Section Setup.

Variable JSON_parse : string -> Result JSValue.

(** [setupChime] of src/ChimeDemo.tsx never throws and ends the loading;
    when the provisioning stage raises, it stops there, with the error
    surfaced; when the stage builds a session, the session is installed and
    stays installed whatever comes after. *)
Lemma ChimeDemo_setupChime (sdk : ChimeSDK) (fetched : Result Response) (audioElement : bool)
    (s : ChimeDemo.State) :
  exists s',
    ChimeDemo.setupChime JSON_parse sdk fetched audioElement s = (Ok tt, s') /\
    ChimeDemo.isLoading s' = false /\
    match provisioning JSON_parse sdk fetched with
    | Throw e =>
        s' = ChimeDemo.setIsLoading false
               (ChimeDemo.setError (Some (message_or_unknown e))
                  (ChimeDemo.print LError "❌ Error setting up audio:" (ArgExn e)
                     (ChimeDemo.setIsLoading true s)))
    | Ok session => ChimeDemo.meetingSession s' = Some session
    end.
Proof.
  unfold ChimeDemo.setupChime, provisioning, construct.
  match goal with
  | |- context [mbind ?k (Eff.when audioElement ?b)] =>
      set (rest := mbind k (Eff.when audioElement b))
  end.
  unfold mbind, mret, Eff_bind, Eff_ret, Eff.bind, Eff.ret, Eff.lift, Eff.modify,
    Eff.try_catch, Eff.when, Eff.may_throw, Eff.throw, Eff.finally.
  destruct fetched as [response|e]; cbn; [|eauto].
  destruct (ok response); cbn; [|eauto].
  destruct (JSON_parse (body response)) as [data|e]; cbn; [|eauto].
  destruct (get data "meetingResponse") as [m|e]; cbn; [|eauto].
  destruct (get data "attendeeResponse") as [a|e]; cbn; [|eauto].
  destruct (new_ConsoleLogger sdk); cbn; [eauto|].
  destruct (new_DefaultDeviceController sdk); cbn; [eauto|].
  destruct (new_MeetingSessionConfiguration sdk m a); cbn; [eauto|].
  destruct (new_DefaultMeetingSession sdk _); cbn; [eauto|].
  set (session := mkSession (mkConfiguration m a)).
  set (s1 := ChimeDemo.setMeetingSession (Some session) (ChimeDemo.setIsLoading true s)).
  assert (Hrest : Eff.keeps (fun s => ChimeDemo.meetingSession s = Some session) rest).
  { subst rest. unfold ChimeDemo.selectFirst. keeps. }
  specialize (Hrest s1 eq_refl).
  destruct (rest s1) as [[[]|e] s2]; cbn in *; eauto.
Qed.

(** The same for the transcription variant. *)
Lemma ChimeWithTranscribe_setupChime (sdk : ChimeSDK) (fetched : Result Response)
    (audioElement : bool) (w : ChimeWithTranscribe.World) :
  exists w',
    ChimeWithTranscribe.setupChime JSON_parse sdk fetched audioElement w = (Ok tt, w') /\
    ChimeWithTranscribe.isLoading w' = false /\
    match provisioning JSON_parse sdk fetched with
    | Throw e =>
        w' = ChimeWithTranscribe.setIsLoading false
               (ChimeWithTranscribe.setError (Some (message_or_unknown e))
                  (ChimeWithTranscribe.print LError "❌ Setup error:" (ArgExn e)
                     (ChimeWithTranscribe.setIsLoading true w)))
    | Ok session => ChimeWithTranscribe.meetingSession w' = Some session
    end.
Proof.
  unfold ChimeWithTranscribe.setupChime, provisioning, construct.
  match goal with
  | |- context [mbind ?k (Eff.when audioElement ?b)] =>
      set (rest := mbind k (Eff.when audioElement b))
  end.
  unfold mbind, mret, Eff_bind, Eff_ret, Eff.bind, Eff.ret, Eff.lift, Eff.modify,
    Eff.try_catch, Eff.when, Eff.may_throw, Eff.throw, Eff.finally.
  destruct fetched as [response|e]; cbn; [|eauto].
  destruct (ok response); cbn; [|eauto].
  destruct (JSON_parse (body response)) as [data|e]; cbn; [|eauto].
  destruct (get data "meetingResponse") as [m|e]; cbn; [|eauto].
  destruct (get data "attendeeResponse") as [a|e]; cbn; [|eauto].
  destruct (new_ConsoleLogger sdk); cbn; [eauto|].
  destruct (new_DefaultDeviceController sdk); cbn; [eauto|].
  destruct (new_MeetingSessionConfiguration sdk m a); cbn; [eauto|].
  destruct (new_DefaultMeetingSession sdk _); cbn; [eauto|].
  set (session := mkSession (mkConfiguration m a)).
  set (w1 := ChimeWithTranscribe.setMeetingSession (Some session)
               (ChimeWithTranscribe.setIsLoading true w)).
  assert (Hrest : Eff.keeps (fun w => ChimeWithTranscribe.meetingSession w = Some session) rest).
  { subst rest. unfold ChimeWithTranscribe.selectFirst. keeps. }
  specialize (Hrest w1 eq_refl).
  destruct (rest w1) as [[[]|e] w2]; cbn in *; eauto.
Qed.

(** When the provisioning stage raises, and only then. *)
Lemma provisioning_raises (sdk : ChimeSDK) (fetched : Result Response) :
  raises (provisioning JSON_parse sdk fetched) <->
  match fetched with
  | Throw _ => True
  | Ok response =>
      ok response = false \/
      match JSON_parse (body response) with
      | Throw _ => True
      | Ok data =>
          data = JNull \/ data = JUndefined \/
          exists meetingResponse attendeeResponse,
            get data "meetingResponse" = Ok meetingResponse /\
            get data "attendeeResponse" = Ok attendeeResponse /\
            raises (construct sdk meetingResponse attendeeResponse)
      end
  end.
Proof.
  unfold provisioning.
  destruct fetched as [response|e]; [|reflexivity].
  destruct (ok response); cbn; [|intuition].
  destruct (JSON_parse (body response)) as [data|e]; [|cbn; intuition].
  split.
  - intros H. right.
    destruct data; cbn in *; auto; right; right; eauto.
  - intros [H|[->|[->|(m & a & Hm & Ha & H)]]]; try discriminate; try exact I.
    now rewrite Hm, Ha.
Qed.

(** With an SDK whose constructors throw on an absent descriptor, every
    failure of the endpoint raises. *)
Lemma endpoint_failure_raises (sdk : ChimeSDK) (fetched : Result Response) :
  (forall meetingResponse attendeeResponse,
     meetingResponse = JUndefined \/ attendeeResponse = JUndefined ->
     raises (construct sdk meetingResponse attendeeResponse)) ->
  endpoint_failure JSON_parse fetched ->
  raises (provisioning JSON_parse sdk fetched).
Proof.
  intros Hsdk. unfold endpoint_failure, provisioning, lacks.
  destruct fetched as [response|e]; [|contradiction].
  destruct (ok response); cbn; [|exact (fun _ => I)].
  intros [H|H]; [discriminate|].
  destruct (JSON_parse (body response)) as [data|e]; [|exact I].
  destruct (get data "meetingResponse") as [m|e]; [|exact I].
  destruct (get data "attendeeResponse") as [a|e]; [|exact I].
  destruct H as [H|H].
  - destruct m; try contradiction. apply Hsdk. now left.
  - destruct a; try contradiction. apply Hsdk. now right.
Qed.

(** C4, as the code has it.  [setupChime], in both components, never throws
    past its boundary.  It aborts (the error is surfaced, the loading ends,
    no conference session is installed, nothing of the conference is bound,
    observed or started) exactly when its provisioning stage raises, and
    that is: when the fetch itself rejects, when the endpoint returns a
    status outside 2xx, when the body is not JSON or is [null], or when one
    of the SDK's constructors throws on the two descriptors as they were
    read from the payload.  The component has no test of its own for a
    payload without [meetingResponse] or [attendeeResponse]: the descriptor
    is read as [undefined] and handed to the SDK, so that such a payload
    aborts the setup when the SDK's constructors throw on an absent
    descriptor.  When the stage does not raise, the session it built is
    installed. *)
Theorem setup_aborts_exactly_when_provisioning_raises
    (sdk : ChimeSDK) (fetched : Result Response) (audioElement : bool) :
  let demo :=
    ChimeDemo.setupChime JSON_parse sdk fetched audioElement ChimeDemo.initial in
  let full :=
    ChimeWithTranscribe.setupChime JSON_parse sdk fetched audioElement
      ChimeWithTranscribe.initial in
  demo.1 = Ok tt /\
  full.1 = Ok tt /\
  ChimeDemo.isLoading demo.2 = false /\
  ChimeWithTranscribe.isLoading full.2 = false /\
  match provisioning JSON_parse sdk fetched with
  | Throw e =>
      ChimeDemo.error demo.2 = Some (message_or_unknown e) /\
      ChimeDemo.meetingSession demo.2 = None /\
      ChimeDemo.conference demo.2 = no_conference /\
      ChimeDemo.startTimerArmed demo.2 = false /\
      ChimeWithTranscribe.error full.2 = Some (message_or_unknown e) /\
      ChimeWithTranscribe.meetingSession full.2 = None /\
      ChimeWithTranscribe.conference full.2 = no_conference
  | Ok session =>
      ChimeDemo.meetingSession demo.2 = Some session /\
      ChimeWithTranscribe.meetingSession full.2 = Some session
  end /\
  (raises (provisioning JSON_parse sdk fetched) <->
   match fetched with
   | Throw _ => True
   | Ok response =>
       ok response = false \/
       match JSON_parse (body response) with
       | Throw _ => True
       | Ok data =>
           data = JNull \/ data = JUndefined \/
           exists meetingResponse attendeeResponse,
             get data "meetingResponse" = Ok meetingResponse /\
             get data "attendeeResponse" = Ok attendeeResponse /\
             raises (construct sdk meetingResponse attendeeResponse)
       end
   end) /\
  ((forall meetingResponse attendeeResponse,
      meetingResponse = JUndefined \/ attendeeResponse = JUndefined ->
      raises (construct sdk meetingResponse attendeeResponse)) ->
   endpoint_failure JSON_parse fetched ->
   raises (provisioning JSON_parse sdk fetched)).
Proof.
  intros demo full. subst demo full.
  destruct (ChimeDemo_setupChime sdk fetched audioElement ChimeDemo.initial)
    as (s' & -> & Hloading & Hdemo).
  destruct (ChimeWithTranscribe_setupChime sdk fetched audioElement ChimeWithTranscribe.initial)
    as (w' & -> & Hloading' & Hfull).
  cbn [fst snd].
  split; [reflexivity|]. split; [reflexivity|].
  split; [exact Hloading|]. split; [exact Hloading'|].
  split; [|split; [apply provisioning_raises | apply endpoint_failure_raises]].
  destruct (provisioning JSON_parse sdk fetched) as [session|e].
  - split; assumption.
  - subst s' w'. repeat split.
Qed.

End Setup.

(** C4, as stated, fails: when the fetch rejects (the network is down), the
    endpoint has returned neither a status outside 2xx nor a payload without
    a descriptor, and yet the setup aborts with the error surfaced, in both
    components. *)
Lemma rejected_fetch_aborts_setup :
  let fetched : Result Response := Throw (TypeError "Failed to fetch") in
  let demo :=
    (ChimeDemo.setupChime Fixture.JSON_parse Fixture.lenient fetched true ChimeDemo.initial).2 in
  let full :=
    (ChimeWithTranscribe.setupChime Fixture.JSON_parse Fixture.lenient fetched true
       ChimeWithTranscribe.initial).2 in
  (endpoint_failure Fixture.JSON_parse fetched <-> False) /\
  ChimeDemo.error demo = Some "Failed to fetch" /\
  ChimeDemo.meetingSession demo = None /\
  ChimeWithTranscribe.error full = Some "Failed to fetch" /\
  ChimeWithTranscribe.meetingSession full = None.
Proof. split; [reflexivity|]. evaluate. Qed.

(** A payload without descriptors is the SDK's to refuse.  With an SDK whose
    constructors accept an absent descriptor, the body [{}] installs a
    session and starts the conference; with one whose session constructor
    throws on it, the setup aborts with that error. *)
Example absent_descriptors_are_left_to_the_sdk :
  let fetched := Ok (mkResponse 200 "{}") in
  let accepted :=
    (ChimeWithTranscribe.setupChime Fixture.JSON_parse Fixture.lenient fetched true
       ChimeWithTranscribe.initial).2 in
  let refused :=
    (ChimeWithTranscribe.setupChime Fixture.JSON_parse Fixture.strict fetched true
       ChimeWithTranscribe.initial).2 in
  ChimeWithTranscribe.meetingSession accepted =
    Some (mkSession (mkConfiguration JUndefined JUndefined)) /\
  ChimeWithTranscribe.error accepted = None /\
  startRequested (ChimeWithTranscribe.conference accepted) = true /\
  ChimeWithTranscribe.meetingSession refused = None /\
  ChimeWithTranscribe.error refused = Some "Cannot read properties of null".
Proof. evaluate. Qed.

(** The statuses outside 2xx abort the setup before any session exists. *)
Example status_500_aborts_setup :
  let full :=
    (ChimeWithTranscribe.setupChime Fixture.JSON_parse Fixture.lenient
       (Ok (mkResponse 500 Fixture.credentials_text)) true ChimeWithTranscribe.initial).2 in
  ChimeWithTranscribe.error full = Some "API failed with status 500" /\
  ChimeWithTranscribe.meetingSession full = None /\
  ChimeWithTranscribe.isConnected full = false /\
  ChimeWithTranscribe.isLoading full = false.
Proof. evaluate. Qed.

(** ** The observer *)

(** C8. In src/ChimeDemo.tsx, when the conference session stops, the
    connected flag becomes false; a status code other than OK sets the error
    state (to the message that carries the code); the status OK leaves the
    error state as it was: no error is surfaced. *)
Theorem disconnection_status_decides_the_error
    (OK statusCode : MeetingSessionStatusCode) (s : ChimeDemo.State) :
  let s' := ChimeDemo.audioVideoDidStop OK statusCode s in
  ChimeDemo.isConnected s' = false /\
  ChimeDemo.meetingSession s' = ChimeDemo.meetingSession s /\
  (statusCode <> OK ->
     ChimeDemo.error s' = Some ("Connection error: " +:+ string_of_Z statusCode)) /\
  (statusCode = OK -> ChimeDemo.error s' = ChimeDemo.error s).
Proof.
  intros s'. subst s'. unfold ChimeDemo.audioVideoDidStop.
  destruct (Z.eqb_spec statusCode OK) as [Heq|Hne]; cbn; repeat split; congruence.
Qed.

Example disconnection_with_and_without_error :
  ChimeDemo.error (ChimeDemo.audioVideoDidStop Fixture.OK 0 ChimeDemo.initial) = None /\
  ChimeDemo.error (ChimeDemo.audioVideoDidStop Fixture.OK 6 ChimeDemo.initial) =
    Some "Connection error: 6".
Proof. evaluate. Qed.

(** The observer of the transcription variant takes no status: whatever the
    reason of the disconnection, the error state is what it was. *)
Remark transcription_variant_ignores_the_status (w : ChimeWithTranscribe.World) :
  let w' := (ChimeWithTranscribe.audioVideoDidStop w).2 in
  ChimeWithTranscribe.error w' = ChimeWithTranscribe.error w /\
  ChimeWithTranscribe.isConnected w' = false.
Proof.
  intros w'. subst w'.
  unfold ChimeWithTranscribe.audioVideoDidStop. eff. cbn.
  set (w1 := ChimeWithTranscribe.setIsConnected false _).
  destruct (Lifecycle.stopTranscription_frame w1) as (w' & -> & _ & _ & ->).
  split; reflexivity.
Qed.

(** C10. Whenever the conference becomes connected ([audioVideoDidStart]
    fires), in either component, the connected flag is true and the error
    state is null afterwards, whatever error was displayed before. *)
Theorem connected_clears_the_error :
  (forall s : ChimeDemo.State,
     let s' := ChimeDemo.audioVideoDidStart s in
     ChimeDemo.isConnected s' = true /\ ChimeDemo.error s' = None) /\
  (forall w : ChimeWithTranscribe.World,
     let w' := ChimeWithTranscribe.audioVideoDidStart w in
     ChimeWithTranscribe.isConnected w' = true /\ ChimeWithTranscribe.error w' = None).
Proof. split; intros; split; reflexivity. Qed.

End Conference.

(** ** What the event loop keeps *)

(** Splits on the innermost test that stands in the way. *)
Ltac inner_case :=
  match goal with
  | |- context [match ?x with _ => _ end] =>
      lazymatch x with
      | context [match _ with _ => _ end] => fail
      | _ => destruct x eqn:?
      end
  end.

(** Runs a handler symbolically, one case per path through it. *)
Ltac execute := eff; cbn; repeat (inner_case; cbn in * ).

Module Pipeline.
Import ChimeWithTranscribe Reachable.

Ltac handlers :=
  unfold dispatch, toggleTranscription, audioVideoDidStop, startTranscription,
    stopTranscription, startAudioCapture_resume, onloadend, onmessage,
    onopen, onerror, onclose, ondataavailable, startAudioCapture,
    audioVideoDidStart, audioVideoDidStartConnecting,
    MediaRecorder_stop, WebSocket_close, WebSocket_send, set_readyState.

Lemma ready_insert (l : list WebSocket) (sid sid' : nat) (s s' : WebSocket) :
  l !! sid' = Some s -> readyState s <> CONNECTING ->
  readyState s' <> CONNECTING ->
  exists s'', <[sid := s']> l !! sid' = Some s'' /\ readyState s'' <> CONNECTING.
Proof.
  intros Hs Hready Hready'. destruct (decide (sid = sid')) as [->|Hne].
  - exists s'. split; [|exact Hready'].
    apply list_lookup_insert_eq. eapply lookup_lt_Some, Hs.
  - exists s. split; [|exact Hready]. now rewrite list_lookup_insert_ne.
Qed.

Lemma ready_app (l : list WebSocket) (sid' : nat) (s new : WebSocket) :
  l !! sid' = Some s -> readyState s <> CONNECTING ->
  exists s'', (l ++ [new]) !! sid' = Some s'' /\ readyState s'' <> CONNECTING.
Proof. intros Hs Hready. exists s. split; [now apply lookup_app_l_Some | exact Hready]. Qed.

(** Proves [readers_ready] of a state written out. *)
Ltac ready :=
  unfold readers_ready in *; cbn;
  repeat first
    [ apply Forall_app; split
    | apply Forall_delete
    | apply Forall_cons; split; [cbn|]
    | apply Forall_nil ];
  try exact I;
  try (eexists; split;
         [eassumption | let E := fresh in intros E; rewrite E in *; discriminate]);
  try (eapply Forall_impl; [eassumption|];
       let sid := fresh "sid" in let b := fresh "b" in
       let s := fresh "s" in let Hs := fresh "Hs" in let Hr := fresh "Hr" in
       intros [sid b] (s & Hs & Hr); cbn in *;
       first [ now eauto
             | eapply ready_insert; [eassumption..|cbn; congruence]
             | eapply ready_app; eassumption ]).

Section Loop.

Variable JSON_parse : string -> Result JSValue.

Lemma run_snoc (events : list Event) (e : Event) (w : World) :
  run JSON_parse (events ++ [e]) w = step JSON_parse (run JSON_parse events w) e.
Proof. unfold run. now rewrite foldl_app. Qed.

(** An invariant of the events is an invariant of the runs. *)
Lemma run_keeps (I : World -> Prop) (allowed : Event -> Prop) :
  (forall e, allowed e -> Eff.keeps I (dispatch JSON_parse e)) ->
  forall events w, Forall allowed events -> I w -> I (run JSON_parse events w).
Proof.
  intros Hstep events. induction events as [|e events IH]; intros w Hall Hw; [exact Hw|].
  apply Forall_cons in Hall as [He Hall].
  cbn. apply IH; [exact Hall|]. now apply Hstep.
Qed.

Lemma run_keeps_always (I : World -> Prop) :
  (forall e, Eff.keeps I (dispatch JSON_parse e)) ->
  forall events w, I w -> I (run JSON_parse events w).
Proof.
  intros Hstep events w Hw.
  apply (run_keeps I (fun _ => True)); auto. now apply Forall_true.
Qed.

(** The session, the loading flag, the microphone and the SDK's conference
    are out of reach of every event. *)
Lemma dispatch_keeps_setup
    (c : option MeetingSession * bool * option string * Conference) (e : Event) :
  Eff.keeps
    (fun w => (meetingSession w, isLoading w, microphoneDeviceId w, conference w) = c)
    (dispatch JSON_parse e).
Proof.
  unfold dispatch, toggleTranscription, startTranscription, stopTranscription,
    startAudioCapture_resume, onloadend, onmessage, audioVideoDidStop.
  Invariants.through ltac:(fail) ltac:(assumption).
Qed.

(** The connected flag is out of reach of every event but the two of the
    observer. *)
Lemma dispatch_keeps_isConnected (b : bool) (e : Event) :
  match e with DidStart | DidStop => False | _ => True end ->
  Eff.keeps (fun w => isConnected w = b) (dispatch JSON_parse e).
Proof.
  intros He. unfold dispatch.
  apply EffFacts.keeps_bind; [apply EffFacts.keeps_gets|intros w].
  destruct e; try contradiction;
    unfold toggleTranscription, startTranscription, stopTranscription,
      startAudioCapture_resume, onloadend, onmessage;
    Invariants.through ltac:(fail) ltac:(assumption).
Qed.

(** The transcripts are out of reach of every event but a message. *)
Lemma dispatch_keeps_transcripts (c : list JSValue * JSValue) (e : Event) :
  match e with Message _ _ => False | _ => True end ->
  Eff.keeps (fun w => (transcripts w, latestTranscript w) = c) (dispatch JSON_parse e).
Proof.
  intros He. unfold dispatch.
  apply EffFacts.keeps_bind; [apply EffFacts.keeps_gets|intros w].
  destruct e; try contradiction;
    unfold toggleTranscription, startTranscription, stopTranscription,
      startAudioCapture_resume, onloadend, audioVideoDidStop;
    Invariants.through ltac:(fail) ltac:(assumption).
Qed.

(** The chunk buffer is empty after every event. *)
Lemma dispatch_keeps_buffer (e : Event) :
  Eff.keeps (fun w => audioChunks w = []) (dispatch JSON_parse e).
Proof.
  unfold dispatch, toggleTranscription, startTranscription, stopTranscription,
    startAudioCapture_resume, onloadend, onmessage, audioVideoDidStop.
  Invariants.through ltac:(fail) ltac:(first [assumption | reflexivity]).
Qed.

Lemma startAudioCapture_resume_keeps_live (sid : nat) (device : string)
    (outcome : CaptureOutcome) :
  Eff.keeps all_live (startAudioCapture_resume sid device outcome).
Proof.
  intros w H. unfold startAudioCapture_resume, all_live in *. eff.
  destruct outcome; cbn; try assumption.
  all: apply Forall_app; split; [assumption | now constructor].
Qed.

Lemma dispatch_keeps_live (e : Event) : Eff.keeps all_live (dispatch JSON_parse e).
Proof.
  unfold dispatch, toggleTranscription, startTranscription, stopTranscription,
    onloadend, onmessage, audioVideoDidStop.
  Invariants.through ltac:(apply startAudioCapture_resume_keeps_live) ltac:(assumption).
Qed.

(** Without a microphone no event creates a socket. *)
Lemma dispatch_without_microphone (n : nat) (e : Event) :
  Eff.keeps (fun w => available (microphoneDeviceId w) = false /\ length (sockets w) = n)
    (dispatch JSON_parse e).
Proof.
  intros w [Hmic Hlen]. handlers.
  destruct e; execute.
  all: rewrite ?length_insert; try (split; assumption).
  rewrite Hmic in *. discriminate.
Qed.

(** No event but the end of a failed read throws past its handler, and
    readers are only started for sockets that are open. *)
Lemma dispatch_safe (e : Event) (w : World) :
  readers_ready w ->
  exists r w',
    dispatch JSON_parse e w = (r, w') /\ readers_ready w' /\
    match e with LoadEndFailed _ => True | _ => r = Ok tt end.
Proof.
  intros Hw. handlers. unfold base64_of_result.
  destruct e; execute.
  all: try discriminate.
  all: try (do 2 eexists; split; [reflexivity|]; split; [ready | first [reflexivity | exact I]]).
  (* the reader finishes for a socket that is still connecting: there is none *)
  exfalso.
  match goal with
  | H : readers w !! _ = Some _ |- _ =>
      destruct (Forall_lookup_1 _ _ _ _ Hw H) as (s' & Hs' & Hready)
  end.
  cbn in Hs'. congruence.
Qed.

Lemma run_safe (events : list Event) (w : World) :
  readers_ready w -> readers_ready (run JSON_parse events w).
Proof.
  revert w. induction events as [|e events IH]; intros w Hw; [exact Hw|].
  cbn. apply IH. unfold step.
  destruct (dispatch_safe e w Hw) as (r & w' & -> & Hw' & _). exact Hw'.
Qed.

(** The end of a failed read throws on [reader.result], before anything is
    sent. *)
Lemma failed_read_throws (i sid : nat) (blob : Blob) (w : World) :
  readers w !! i = Some (sid, blob) ->
  dispatch JSON_parse (LoadEndFailed i) w =
    (Throw (TypeError "Cannot read properties of null (reading 'split')"),
     set_readers (delete i (readers w)) w).
Proof. intros Hreader. unfold dispatch, onloadend. eff. cbn. now rewrite Hreader. Qed.

Lemma unknown_reader_is_ignored (i : nat) (completed : bool) (w : World) :
  readers w !! i = None -> onloadend i completed w = (Ok tt, w).
Proof. intros Hreader. unfold onloadend. eff. cbn. now rewrite Hreader. Qed.

Lemma filter_all {A} (P : A -> Prop) `{!forall x, Decision (P x)} (l : list A) :
  Forall P l -> filter P l = l.
Proof.
  induction 1 as [|x l Hx _ IH]; [reflexivity|].
  rewrite filter_cons_True by exact Hx. now rewrite IH.
Qed.

(** X1. No event of the transcription pipeline (a click, a transition of a
    socket, a settled capture, a chunk, a finished reader) reaches the
    conference: after any run of events the session, the loading flag, the
    selected microphone and the SDK's conference are what they were, and the
    connected flag changes only with the two callbacks of the observer. *)
Theorem events_leave_the_conference_state (events : list Event) (w : World) :
  let w' := run JSON_parse events w in
  meetingSession w' = meetingSession w /\
  isLoading w' = isLoading w /\
  microphoneDeviceId w' = microphoneDeviceId w /\
  conference w' = conference w /\
  (Forall (fun e => match e with DidStart | DidStop => False | _ => True end) events ->
   conference_state w' = conference_state w).
Proof.
  intros w'. subst w'.
  pose proof (run_keeps_always _ (dispatch_keeps_setup
                (meetingSession w, isLoading w, microphoneDeviceId w, conference w))
                events w eq_refl) as H.
  cbn beta in H. injection H as H1 H2 H3 H4.
  repeat split; try assumption.
  intros Hall.
  pose proof (run_keeps _ _ (dispatch_keeps_isConnected (isConnected w)) events w Hall eq_refl)
    as H5.
  cbn beta in H5. unfold conference_state. congruence.
Qed.

(** X2. The transcript history outlives the transcription session: no event
    at all (stopping, restarting, losing the socket or the conference) drops
    or moves an entry of the history, and no event other than a message
    changes the history or the current transcript; a restarted session goes
    on from the transcripts of the previous one. *)
Theorem history_outlives_every_event (events : list Event) (w : World) :
  let w' := run JSON_parse events w in
  transcripts w `prefix_of` transcripts w' /\
  (Forall (fun e => match e with Message _ _ => False | _ => True end) events ->
   transcripts w' = transcripts w /\ latestTranscript w' = latestTranscript w).
Proof.
  intros w'. subst w'. split; [apply Invariants.run_keeps_history|].
  intros Hall.
  pose proof (run_keeps _ _ (dispatch_keeps_transcripts (transcripts w, latestTranscript w))
                events w Hall eq_refl) as H.
  cbn beta in H. injection H as H1 H2. now split.
Qed.

(** X3. No microphone stream is ever released: if every stream acquired so
    far is live, then after any run of events every stream acquired so far
    is live, the streams that were there are still there, and their number
    has not gone down. *)
Theorem acquired_streams_stay_live (events : list Event) (w : World) :
  all_live w ->
  let w' := run JSON_parse events w in
  all_live w' /\
  live_streams w' = streams w' /\
  streams w `prefix_of` streams w' /\
  (length (live_streams w) <= length (live_streams w'))%nat.
Proof.
  intros Hw w'. subst w'.
  pose proof (run_keeps_always _ dispatch_keeps_live events w Hw) as Hlive.
  pose proof (Invariants.run_keeps_streams JSON_parse events w) as Hprefix.
  split; [exact Hlive|].
  unfold live_streams. rewrite !filter_all by assumption.
  split; [reflexivity|]. split; [exact Hprefix|].
  now apply prefix_length.
Qed.

(** X4. Without a selected microphone the transcription never starts: no run
    of events creates a WebSocket, and a click on the toggle of the
    connected, idle component only sets the error 'Microphone or connection
    not available'. *)
Theorem no_socket_without_a_microphone (events : list Event) (w : World) :
  available (microphoneDeviceId w) = false ->
  let w' := run JSON_parse events w in
  length (sockets w') = length (sockets w) /\
  (forall new_WebSocket,
     isConnected w' = true -> isTranscribing w' = false ->
     let clicked := step JSON_parse w' (Click new_WebSocket) in
     error clicked = Some "Microphone or connection not available" /\
     sockets clicked = sockets w' /\
     webSocket clicked = webSocket w').
Proof.
  intros Hmic w'. subst w'.
  pose proof (run_keeps_always _ (dispatch_without_microphone (length (sockets w)))
                events w (conj Hmic eq_refl)) as [Hmic' Hlen].
  split; [exact Hlen|].
  intros o Hconn Hidle. unfold step. handlers. eff. cbn.
  rewrite Hconn, Hidle, Hmic'. cbn. repeat split.
Qed.

(** X5. The one event that throws past its handler is the end of a failed
    read.  From a state whose FileReaders were all started for sockets that
    have left the connecting state (the first render has no reader at all),
    after every run of events: the [loadend] of a pending reader whose read
    failed throws the [TypeError] of [reader.result.split] on [null], with
    the reader gone and nothing sent or written; every other event ends
    normally, the [ws.send] of a completed read included; and the state that
    any event leaves, the throwing one too, has that property again. *)
Theorem only_a_failed_read_throws (events : list Event) (e : Event) (w : World) :
  readers_ready w ->
  let w' := run JSON_parse events w in
  match e with
  | LoadEndFailed i =>
      match readers w' !! i with
      | Some _ =>
          dispatch JSON_parse e w' =
            (Throw (TypeError "Cannot read properties of null (reading 'split')"),
             set_readers (delete i (readers w')) w')
      | None => dispatch JSON_parse e w' = (Ok tt, w')
      end
  | _ => (dispatch JSON_parse e w').1 = Ok tt
  end /\
  readers_ready w' /\
  readers_ready (step JSON_parse w' e).
Proof.
  intros Hw w'. subst w'.
  pose proof (run_safe events w Hw) as Hw'.
  set (w' := run JSON_parse events w) in *.
  unfold step.
  destruct (dispatch_safe e w' Hw') as (r & w'' & Hrun & Hw'' & Hr).
  rewrite Hrun. cbn [fst snd].
  split; [|split; assumption].
  destruct e; try exact Hr.
  rewrite <- Hrun.
  destruct (readers w' !! i) as [[sid blob]|] eqn:Hreader.
  - exact (failed_read_throws i sid blob w' Hreader).
  - unfold dispatch. eff. cbn. now apply unknown_reader_is_ignored.
Qed.

(** What [ondataavailable] leaves when the transport is open and the buffer
    empty. *)
Lemma ondataavailable_queues (rid : nat) (r : MediaRecorder) (s : WebSocket) (data : Blob)
    (w : World) :
  recorders w !! rid = Some r ->
  sockets w !! ws r = Some s ->
  readyState s = OPEN ->
  audioChunks w = [] ->
  ondataavailable rid data w = set_readers (readers w ++ [(ws r, data)]) (set_audioChunks [] w).
Proof.
  intros Hr Hs Hopen Hbuf. unfold ondataavailable. rewrite Hr. cbn.
  rewrite Hs, Hopen, Hbuf. cbn.
  destruct data; cbn; [reflexivity|]. unfold new_Blob. cbn. now rewrite app_nil_r.
Qed.

(** X6. Chunks are sent one by one.  In every state reached from an empty
    chunk buffer, a chunk that arrives while the socket of its recorder is
    open (be it an empty chunk) is handed to a new FileReader as a blob of
    exactly its bytes, and when that reader ends with its read completed, exactly
    one message
    [{action: 'startTranscription', audioData, languageCode: 'en-US'}] with
    those bytes is added after the messages already sent on that socket;
    nothing throws and the buffer is empty again. *)
Theorem chunk_is_sent_alone
    (events : list Event) (start : World) (rid : nat) (r : MediaRecorder) (s : WebSocket)
    (data : Blob) :
  audioChunks start = [] ->
  let w := run JSON_parse events start in
  recorders w !! rid = Some r ->
  sockets w !! ws r = Some s ->
  readyState s = OPEN ->
  let queued := step JSON_parse w (DataAvailable rid data) in
  let w' := step JSON_parse queued (LoadEnd (length (readers w))) in
  readers queued = readers w ++ [(ws r, data)] /\
  sockets queued = sockets w /\
  (dispatch JSON_parse (LoadEnd (length (readers w))) queued).1 = Ok tt /\
  sockets w' =
    <[ws r := mkSocket OPEN (sent s ++ [mkMessage "startTranscription" data "en-US"])
                (captured_microphoneDeviceId s)]> (sockets w) /\
  readers w' = readers w /\
  audioChunks w' = [].
Proof.
  intros Hstart w Hr Hs Hopen queued w'.
  assert (Hbuf : audioChunks w = [])
    by exact (run_keeps_always _ dispatch_keeps_buffer events start Hstart).
  assert (Hqueued : queued =
            set_readers (readers w ++ [(ws r, data)]) (set_audioChunks [] w)).
  { subst queued. unfold step, dispatch. eff. cbn.
    now apply ondataavailable_queues with (s := s). }
  subst w'. rewrite Hqueued. unfold step, dispatch, onloadend, WebSocket_send. eff. cbn.
  rewrite list_lookup_middle by reflexivity. cbn. rewrite Hs, Hopen. cbn.
  rewrite delete_middle, app_nil_r. repeat split.
Qed.

(** X7. A chunk that is still being read when the transcription is stopped
    is never sent: after [stopTranscription] on an open socket, the end of a
    completed read started for that socket throws nothing and sends nothing; the
    reader is gone and the socket, now closing, has the messages it had. *)
Theorem chunk_read_after_stop_is_not_sent
    (w : World) (sid i : nat) (s : WebSocket) (blob : Blob) :
  webSocket w = Some sid ->
  sockets w !! sid = Some s ->
  readyState s = OPEN ->
  readers w !! i = Some (sid, blob) ->
  let stopped := (stopTranscription w).2 in
  let w' := step JSON_parse stopped (LoadEnd i) in
  (dispatch JSON_parse (LoadEnd i) stopped).1 = Ok tt /\
  sockets w' = <[sid := mkSocket CLOSING (sent s) (captured_microphoneDeviceId s)]> (sockets w) /\
  readers w' = delete i (readers w) /\
  isTranscribing w' = false.
Proof.
  intros Href Hs Hopen Hreader stopped w'. subst w' stopped.
  assert (Hlt : (sid < length (sockets w))%nat) by (eapply lookup_lt_Some, Hs).
  unfold step. handlers. execute; simplify_eq; cbn in *.
  all: try congruence.
  all: try (match goal with
            | H : is_OPEN (readyState ?x) = false, H' : readyState ?x = OPEN |- _ =>
                rewrite H' in H; discriminate
            end).
  all: repeat match goal with
         | H : <[_:=_]> _ !! _ = _ |- _ =>
             rewrite list_lookup_insert_eq in H by assumption; simplify_eq; cbn in *
         end.
  all: try congruence.
  all: repeat split; try reflexivity; try now rewrite list_insert_insert_eq.
Qed.

(** X8. [stopTranscription] does not cancel a socket that is still
    connecting: it leaves the socket as it is and only forgets it.  When the
    socket opens afterwards, its [onopen] turns the transcribing flag on
    again and asks for the microphone, and a further [stopTranscription]
    cannot close it, for the ref is empty: the socket stays open. *)
Theorem stop_does_not_cancel_a_connecting_socket (w : World) (i : nat) (s : WebSocket) :
  webSocket w = Some i ->
  sockets w !! i = Some s ->
  readyState s = CONNECTING ->
  let stopped := (stopTranscription w).2 in
  let opened := step JSON_parse stopped (Opened i) in
  let again := (stopTranscription opened).2 in
  sockets stopped = sockets w /\
  webSocket stopped = None /\
  isTranscribing stopped = false /\
  isTranscribing opened = true /\
  webSocket opened = None /\
  sockets opened = <[i := mkSocket OPEN (sent s) (captured_microphoneDeviceId s)]> (sockets w) /\
  (forall device,
     captured_microphoneDeviceId s = Some device -> available (Some device) = true ->
     mediaRequests opened = mediaRequests w ++ [(i, device)]) /\
  sockets again = sockets opened /\
  isTranscribing again = false.
Proof.
  intros Href Hsocket Hstate stopped opened again.
  destruct s as [ready messages device]. cbn in Hstate. subst ready.
  assert (Hlt : (i < length (sockets w))%nat) by (eapply lookup_lt_Some, Hsocket).
  assert (Hstopped : sockets stopped = sockets w /\ webSocket stopped = None /\
                     isTranscribing stopped = false /\ mediaRequests stopped = mediaRequests w).
  { subst stopped. Lifecycle.stop_cases w; simplify_eq; repeat split. }
  destruct Hstopped as (Hsockets & Href' & Hflag & Hreq).
  assert (Hopened : opened =
            startAudioCapture i
              (setIsTranscribing true
                 (print LLog "WebSocket connection established" NoArg
                    (set_sockets (<[i := mkSocket OPEN messages device]> (sockets w)) stopped)))).
  { subst opened. unfold step, dispatch, onopen. eff. cbn.
    rewrite Hsockets, Hsocket. reflexivity. }
  assert (Hfacts : isTranscribing opened = true /\ webSocket opened = None /\
                   sockets opened = <[i := mkSocket OPEN messages device]> (sockets w) /\
                   (forall d, device = Some d -> available (Some d) = true ->
                      mediaRequests opened = mediaRequests w ++ [(i, d)])).
  { rewrite Hopened. unfold startAudioCapture. cbn.
    rewrite list_lookup_insert_eq by assumption. cbn.
    destruct device as [d|]; cbn.
    - destruct (negb (String.eqb d "")) eqn:Hd; cbn; rewrite ?Href', ?Hreq;
        repeat split; try congruence.
      all: try (intros d' [= <-] Hd'; cbn in Hd'; congruence).
    - rewrite Href'. repeat split; try congruence; try discriminate. }
  destruct Hfacts as (Hflag' & Href'' & Hsockets' & Hrequests).
  cbn. repeat split; try assumption.
  - subst again. Lifecycle.stop_cases opened; simplify_eq; reflexivity.
  - subst again. destruct (Lifecycle.stopTranscription_frame opened) as (w' & -> & _ & H & _).
    exact H.
Qed.

(** The click that starts a transcription. *)
Lemma click_starts (w : World) :
  isConnected w = true ->
  isTranscribing w = false ->
  available (microphoneDeviceId w) = true ->
  step JSON_parse w (Click None) =
    set_webSocket (Some (length (sockets w)))
      (set_sockets (sockets w ++ [mkSocket CONNECTING [] (microphoneDeviceId w)]) w).
Proof.
  intros Hconn Hidle Hmic. unfold step, dispatch, toggleTranscription, startTranscription.
  eff. cbn. rewrite Hconn. cbn. rewrite Hidle. cbn. rewrite Hmic, Hconn. reflexivity.
Qed.

(** X9. A refused microphone leaves the socket open.  From the connected,
    idle component with a microphone selected: a click opens a socket; when
    [getUserMedia] then rejects, the error 'Error capturing audio for
    transcription' is set and the transcribing flag is turned off, but the
    socket is neither closed nor forgotten: it stays open and referenced,
    with no recorder and no stream.  When instead the stream is granted and
    the recorder cannot be built, the same happens and the stream just
    acquired stays live. *)
Theorem failed_capture_leaves_the_socket_open (w : World) (device : string) (e : Exn) :
  isConnected w = true ->
  isTranscribing w = false ->
  microphoneDeviceId w = Some device ->
  available (Some device) = true ->
  mediaRequests w = [] ->
  let sid := length (sockets w) in
  let refused := run JSON_parse [Click None; Opened sid; MediaSettled 0 (Rejected e)] w in
  let unsupported := run JSON_parse [Click None; Opened sid; MediaSettled 0 (Unsupported e)] w in
  sockets refused = sockets w ++ [mkSocket OPEN [] (Some device)] /\
  webSocket refused = Some sid /\
  isTranscribing refused = false /\
  error refused = Some "Error capturing audio for transcription" /\
  recorders refused = recorders w /\
  streams refused = streams w /\
  sockets unsupported = sockets refused /\
  isTranscribing unsupported = false /\
  error unsupported = error refused /\
  recorders unsupported = recorders w /\
  streams unsupported = streams w ++ [mkStream device true].
Proof.
  intros Hconn Hidle Hmic Havail Hreq sid refused unsupported.
  assert (Hmic' : available (microphoneDeviceId w) = true) by now rewrite Hmic.
  subst refused unsupported. unfold run. cbn [foldl].
  rewrite (click_starts w Hconn Hidle Hmic').
  unfold step, dispatch, onopen, startAudioCapture, startAudioCapture_resume. eff. cbn.
  rewrite list_lookup_middle by reflexivity. cbn.
  rewrite list_lookup_insert_eq by (rewrite length_app; cbn; lia). cbn.
  rewrite Hmic. cbn in Havail |- *. rewrite Havail. cbn.
  rewrite Hreq. cbn.
  replace (<[length (sockets w) := mkSocket OPEN [] (Some device)]>
             (sockets w ++ [mkSocket CONNECTING [] (Some device)]))
    with (sockets w ++ [mkSocket OPEN [] (Some device)]).
  2:{ rewrite insert_app_r_alt by lia. now rewrite Nat.sub_diag. }
  repeat split.
Qed.

(** X10. A lost transport is restarted by one click.  When the open socket
    of a transcription closes, the transcribing flag goes off while the ref
    still names the dead socket and the recorders are what they were; the
    next click on the toggle creates a new socket, leaves the old one closed
    and points the ref at the new one, without touching the error. *)
Theorem closed_transport_is_restarted_by_a_click (w : World) (sid : nat) (s : WebSocket) :
  isConnected w = true ->
  available (microphoneDeviceId w) = true ->
  sockets w !! sid = Some s ->
  readyState s = OPEN ->
  let closed := step JSON_parse w (Closed sid) in
  let w' := step JSON_parse closed (Click None) in
  isTranscribing closed = false /\
  webSocket closed = webSocket w /\
  recorders closed = recorders w /\
  sockets closed = <[sid := mkSocket CLOSED (sent s) (captured_microphoneDeviceId s)]> (sockets w) /\
  sockets w' = sockets closed ++ [mkSocket CONNECTING [] (microphoneDeviceId w)] /\
  webSocket w' = Some (length (sockets w)) /\
  recorders w' = recorders w /\
  error w' = error w.
Proof.
  intros Hconn Hmic Hs Hopen closed w'.
  destruct s as [state out device]. cbn in Hopen. subst state.
  assert (Hclosed : closed =
            onclose (set_sockets (<[sid := mkSocket CLOSED out device]> (sockets w)) w)).
  { subst closed. unfold step, dispatch. eff. cbn. rewrite Hs. reflexivity. }
  subst w'. rewrite Hclosed.
  rewrite click_starts by (cbn; first [assumption | reflexivity]).
  cbn. rewrite length_insert. repeat split.
Qed.

(** While the conference is disconnected no event creates a socket. *)
Lemma dispatch_while_disconnected (n : nat) (e : Event) :
  match e with DidStart => False | _ => True end ->
  Eff.keeps (fun w => isConnected w = false /\ length (sockets w) = n)
    (dispatch JSON_parse e).
Proof.
  intros He w [Hconn Hlen]. handlers.
  destruct e; try contradiction; execute.
  all: rewrite ?length_insert; try (split; assumption); try (split; [reflexivity|assumption]).
  all: congruence.
Qed.

(** X17. What a disconnection of the conference stops, and what it does
    not.  [audioVideoDidStop], from every state, returns, turns the
    connected and the transcribing flags off, empties the socket ref, leaves
    the recorder of the recorder ref inactive and closes the socket of the
    ref when it is open; a [startTranscription] from there creates no socket
    and only sets the error 'Microphone or connection not available', and as
    long as the conference is not connected again no event creates a socket.
    The transcription is not kept stopped, though: a socket of the ref that
    is still connecting is left as it is, and when it opens afterwards the
    transcribing flag is on again while the component is disconnected. *)
Theorem disconnection_stops_the_referenced_session
    (events : list Event) (w : World) (new_WebSocket : option Exn) :
  let w' := step JSON_parse w DidStop in
  let retried := (startTranscription new_WebSocket w').2 in
  let later := run JSON_parse events w' in
  (dispatch JSON_parse DidStop w).1 = Ok tt /\
  isConnected w' = false /\
  isTranscribing w' = false /\
  webSocket w' = None /\
  (forall i recorder,
     mediaRecorder w' = Some i -> recorders w' !! i = Some recorder ->
     state recorder = inactive) /\
  (forall i socket,
     webSocket w = Some i -> sockets w !! i = Some socket -> readyState socket = OPEN ->
     sockets w' =
       <[i := mkSocket CLOSING (sent socket) (captured_microphoneDeviceId socket)]>
         (sockets w)) /\
  sockets retried = sockets w' /\
  webSocket retried = None /\
  error retried = Some "Microphone or connection not available" /\
  (Forall (fun e => match e with DidStart => False | _ => True end) events ->
   isConnected later = false /\ length (sockets later) = length (sockets w')) /\
  (forall i socket,
     webSocket w = Some i -> sockets w !! i = Some socket ->
     readyState socket = CONNECTING ->
     let opened := step JSON_parse w' (Opened i) in
     sockets w' = sockets w /\
     sockets opened =
       <[i := mkSocket OPEN (sent socket) (captured_microphoneDeviceId socket)]> (sockets w) /\
     isConnected opened = false /\
     isTranscribing opened = true).
Proof.
  intros w' retried later.
  set (w1 := setIsConnected false (print LLog "🛑 Audio disconnected" NoArg w)).
  assert (Hstep : dispatch JSON_parse DidStop w = stopTranscription w1).
  { unfold dispatch, audioVideoDidStop. eff. reflexivity. }
  pose proof (Lifecycle.stopTranscription_recorder w1) as Hrecorder.
  destruct (Lifecycle.stopTranscription_sockets w1) as [Hcloses Hsockets].
  destruct (Lifecycle.stopTranscription_frame w1) as (w2 & Hrun & Href & Hflag & Hw2).
  assert (Hw' : w' = w2) by (subst w'; unfold step; now rewrite Hstep, Hrun).
  rewrite Hrun in Hrecorder, Hcloses, Hsockets. cbn [snd] in Hrecorder, Hcloses, Hsockets.
  assert (Hconn : isConnected w2 = false) by (rewrite Hw2; reflexivity).
  clearbody w'. subst w'.
  split; [now rewrite Hstep, Hrun|].
  split; [exact Hconn|]. split; [exact Hflag|]. split; [exact Href|].
  split; [exact Hrecorder|]. split; [exact Hcloses|].
  assert (Hretried : sockets retried = sockets w2 /\ webSocket retried = None /\
                     error retried = Some "Microphone or connection not available").
  { subst retried. unfold startTranscription. eff. cbn. rewrite Hconn, orb_true_r. cbn.
    repeat split. exact Href. }
  destruct Hretried as (H1 & H2 & H3).
  split; [exact H1|]. split; [exact H2|]. split; [exact H3|].
  split.
  - intros Hall. subst later.
    exact (run_keeps (fun v => isConnected v = false /\ length (sockets v) = length (sockets w2))
             (fun e => match e with DidStart => False | _ => True end)
             (dispatch_while_disconnected (length (sockets w2))) events w2 Hall
             (conj Hconn eq_refl)).
  - intros i socket Hi Hsocket Hconnecting opened.
    assert (Hsame : sockets w2 = sockets w).
    { apply Hsockets. intros (i' & socket' & Hi' & Hsocket' & Hopen).
      cbn in Hi', Hsocket'. congruence. }
    split; [exact Hsame|].
    destruct socket as [ready messages device]. cbn in Hconnecting. subst ready. cbn.
    assert (Hopened : opened =
              startAudioCapture i
                (setIsTranscribing true
                   (print LLog "WebSocket connection established" NoArg
                      (set_sockets (<[i := mkSocket OPEN messages device]> (sockets w)) w2)))).
    { subst opened. unfold step, dispatch, onopen. eff. cbn.
      rewrite Hsame, Hsocket. reflexivity. }
    rewrite Hopened. unfold startAudioCapture. cbn.
    repeat inner_case; cbn; repeat split; assumption.
Qed.

End Loop.

(** Two sessions in a row: each acquires a stream, and both are live at the
    end. *)
Lemma acquired_streams_stay_live_witness :
  all_live Fixture.connected /\
  live_streams
    (run Fixture.JSON_parse
       [Click None; Opened 0; MediaSettled 0 Granted; Click None;
        Click None; Opened 1; MediaSettled 0 Granted; Click None]
       Fixture.connected) =
  streams
    (run Fixture.JSON_parse
       [Click None; Opened 0; MediaSettled 0 Granted; Click None;
        Click None; Opened 1; MediaSettled 0 Granted; Click None]
       Fixture.connected).
Proof.
  assert (H : all_live Fixture.connected) by (vm_compute; constructor).
  split; [exact H|].
  exact (proj1 (proj2 (acquired_streams_stay_live Fixture.JSON_parse _ Fixture.connected H))).
Defined.

Lemma no_socket_without_a_microphone_witness :
  available (microphoneDeviceId Scenario.without_microphone) = false /\
  length (sockets (run Fixture.JSON_parse [Click None; Click None]
                     Scenario.without_microphone)) =
  length (sockets Scenario.without_microphone).
Proof.
  assert (H : available (microphoneDeviceId Scenario.without_microphone) = false)
    by (vm_compute; reflexivity).
  split; [exact H|].
  exact (proj1 (no_socket_without_a_microphone Fixture.JSON_parse
                  [Click None; Click None] Scenario.without_microphone H)).
Defined.

(** A chunk is being read when its read fails: the handler throws. *)
Lemma only_a_failed_read_throws_witness :
  let events := [Click None; Opened 0; MediaSettled 0 Granted; DataAvailable 0 [Byte.x01]] in
  let w' := run Fixture.JSON_parse events Fixture.connected in
  readers_ready Fixture.connected /\
  dispatch Fixture.JSON_parse (LoadEndFailed 0) w' =
    (Throw (TypeError "Cannot read properties of null (reading 'split')"),
     set_readers (delete 0%nat (readers w')) w').
Proof.
  intros events w'.
  assert (H : readers_ready Fixture.connected) by (vm_compute; constructor).
  split; [exact H|].
  pose proof (only_a_failed_read_throws Fixture.JSON_parse events (LoadEndFailed 0)
                Fixture.connected H) as T.
  cbv zeta in T. apply proj1 in T.
  vm_compute in T. vm_compute. exact T.
Defined.

Lemma chunk_is_sent_alone_witness :
  let events := [Click None; Opened 0; MediaSettled 0 Granted] in
  let r := mkRecorder recording 0 0 (Some 250%nat) in
  let s := mkSocket OPEN [] (Some "mic-1") in
  let w := run Fixture.JSON_parse events Fixture.connected in
  audioChunks Fixture.connected = [] /\
  recorders w !! 0%nat = Some r /\
  sockets w !! ws r = Some s /\
  readyState s = OPEN /\
  readers (step Fixture.JSON_parse w (DataAvailable 0 [Byte.x01])) =
    readers w ++ [(ws r, [Byte.x01])].
Proof.
  intros events r s w.
  assert (H1 : audioChunks Fixture.connected = []) by (vm_compute; reflexivity).
  assert (H2 : recorders w !! 0%nat = Some r) by (vm_compute; reflexivity).
  assert (H3 : sockets w !! ws r = Some s) by (vm_compute; reflexivity).
  assert (H4 : readyState s = OPEN) by reflexivity.
  split; [exact H1|]. split; [exact H2|]. split; [exact H3|]. split; [exact H4|].
  exact (proj1 (chunk_is_sent_alone Fixture.JSON_parse events Fixture.connected 0 r s
                  [Byte.x01] H1 H2 H3 H4)).
Defined.

Lemma chunk_read_after_stop_is_not_sent_witness :
  let s := mkSocket OPEN [] (Some "mic-1") in
  webSocket Scenario.reading = Some 0%nat /\
  sockets Scenario.reading !! 0%nat = Some s /\
  readyState s = OPEN /\
  readers Scenario.reading !! 0%nat = Some (0%nat, [Byte.x01]) /\
  (dispatch Fixture.JSON_parse (LoadEnd 0) (stopTranscription Scenario.reading).2).1 = Ok tt.
Proof.
  intros s.
  assert (H1 : webSocket Scenario.reading = Some 0%nat) by (vm_compute; reflexivity).
  assert (H2 : sockets Scenario.reading !! 0%nat = Some s) by (vm_compute; reflexivity).
  assert (H3 : readyState s = OPEN) by reflexivity.
  assert (H4 : readers Scenario.reading !! 0%nat = Some (0%nat, [Byte.x01]))
    by (vm_compute; reflexivity).
  split; [exact H1|]. split; [exact H2|]. split; [exact H3|]. split; [exact H4|].
  exact (proj1 (chunk_read_after_stop_is_not_sent Fixture.JSON_parse Scenario.reading 0 0 s
                  [Byte.x01] H1 H2 H3 H4)).
Defined.

Lemma stop_does_not_cancel_a_connecting_socket_witness :
  let s := mkSocket CONNECTING [] (Some "mic-1") in
  webSocket Scenario.connecting = Some 0%nat /\
  sockets Scenario.connecting !! 0%nat = Some s /\
  readyState s = CONNECTING /\
  sockets (stopTranscription Scenario.connecting).2 = sockets Scenario.connecting.
Proof.
  intros s.
  assert (H1 : webSocket Scenario.connecting = Some 0%nat) by (vm_compute; reflexivity).
  assert (H2 : sockets Scenario.connecting !! 0%nat = Some s) by (vm_compute; reflexivity).
  assert (H3 : readyState s = CONNECTING) by reflexivity.
  split; [exact H1|]. split; [exact H2|]. split; [exact H3|].
  exact (proj1 (stop_does_not_cancel_a_connecting_socket Fixture.JSON_parse
                  Scenario.connecting 0 s H1 H2 H3)).
Defined.

Lemma failed_capture_leaves_the_socket_open_witness :
  let e := mkExn "NotAllowedError" "Permission denied" in
  isConnected Fixture.connected = true /\
  isTranscribing Fixture.connected = false /\
  microphoneDeviceId Fixture.connected = Some "mic-1" /\
  available (Some "mic-1") = true /\
  mediaRequests Fixture.connected = [] /\
  sockets
    (run Fixture.JSON_parse
       [Click None; Opened (length (sockets Fixture.connected)); MediaSettled 0 (Rejected e)]
       Fixture.connected) =
  sockets Fixture.connected ++ [mkSocket OPEN [] (Some "mic-1")].
Proof.
  intros e.
  assert (H1 : isConnected Fixture.connected = true) by (vm_compute; reflexivity).
  assert (H2 : isTranscribing Fixture.connected = false) by (vm_compute; reflexivity).
  assert (H3 : microphoneDeviceId Fixture.connected = Some "mic-1")
    by (vm_compute; reflexivity).
  assert (H4 : available (Some "mic-1") = true) by reflexivity.
  assert (H5 : mediaRequests Fixture.connected = []) by (vm_compute; reflexivity).
  split; [exact H1|]. split; [exact H2|]. split; [exact H3|]. split; [exact H4|].
  split; [exact H5|].
  exact (proj1 (failed_capture_leaves_the_socket_open Fixture.JSON_parse Fixture.connected
                  "mic-1" e H1 H2 H3 H4 H5)).
Defined.

Lemma closed_transport_is_restarted_by_a_click_witness :
  let s := mkSocket OPEN [] (Some "mic-1") in
  isConnected Fixture.transcribing = true /\
  available (microphoneDeviceId Fixture.transcribing) = true /\
  sockets Fixture.transcribing !! 0%nat = Some s /\
  readyState s = OPEN /\
  isTranscribing (step Fixture.JSON_parse Fixture.transcribing (Closed 0)) = false.
Proof.
  intros s.
  assert (H1 : isConnected Fixture.transcribing = true) by (vm_compute; reflexivity).
  assert (H2 : available (microphoneDeviceId Fixture.transcribing) = true)
    by (vm_compute; reflexivity).
  assert (H3 : sockets Fixture.transcribing !! 0%nat = Some s) by (vm_compute; reflexivity).
  assert (H4 : readyState s = OPEN) by reflexivity.
  split; [exact H1|]. split; [exact H2|]. split; [exact H3|]. split; [exact H4|].
  exact (proj1 (closed_transport_is_restarted_by_a_click Fixture.JSON_parse
                  Fixture.transcribing 0 s H1 H2 H3 H4)).
Defined.

(** A socket that opens after the conference was disconnected: the
    transcription runs while the component is disconnected, and the chunk
    is sent. *)
Example transcription_resumes_after_a_disconnection :
  let w' :=
    run Fixture.JSON_parse
      [Click None; DidStop; Opened 0; MediaSettled 0 Granted;
       DataAvailable 0 [Byte.x01]; LoadEnd 0] Fixture.connected in
  isConnected w' = false /\
  isTranscribing w' = true /\
  webSocket w' = None /\
  sockets w' =
    [mkSocket OPEN [mkMessage "startTranscription" [Byte.x01] "en-US"] (Some "mic-1")].
Proof. evaluate. Qed.

End Pipeline.

(** ** More on the setup and on the cleanup *)

Module SetupFacts.

Lemma message_or_unknown_nonempty (e : Exn) : message_or_unknown e <> "".
Proof.
  unfold message_or_unknown.
  destruct (String.eqb_spec (exn_message e) ""); [discriminate | assumption].
Qed.

Section Setup.

Variable JSON_parse : string -> Result JSValue.

Ltac setup :=
  unfold ChimeDemo.setupChime, ChimeDemo.selectFirst, ChimeDemo.startTimer,
    ChimeWithTranscribe.setupChime, ChimeWithTranscribe.selectFirst,
    provisioning, construct in *.

(** X11. Device selection is best effort.  When the provisioning stage has
    built the session and neither the binding of the audio element nor the
    start of the conference (in src/ChimeDemo.tsx: the subscription to the
    active speaker detector) fails, then whatever the listing and the
    selection of the microphone and of the speaker do (no device, a listing
    that rejects, a selection that rejects), the setup surfaces no error:
    the error state is what it was, the session is installed, the observer
    is registered and the conference start is requested (in
    src/ChimeDemo.tsx: its timer is armed). *)
Theorem device_failures_do_not_fail_the_setup
    (sdk : ChimeSDK) (fetched : Result Response) (audioElement : bool)
    (session : MeetingSession) (s : ChimeDemo.State) (w : ChimeWithTranscribe.World) :
  provisioning JSON_parse sdk fetched = Ok session ->
  (audioElement = true -> bindAudioElement sdk = None) ->
  subscribeToActiveSpeakerDetector sdk = None ->
  audioVideo_start sdk = None ->
  let s' := (ChimeDemo.setupChime JSON_parse sdk fetched audioElement s).2 in
  let w' := (ChimeWithTranscribe.setupChime JSON_parse sdk fetched audioElement w).2 in
  ChimeDemo.error s' = ChimeDemo.error s /\
  ChimeDemo.meetingSession s' = Some session /\
  ChimeDemo.startTimerArmed s' = true /\
  observed (ChimeDemo.conference s') = true /\
  ChimeWithTranscribe.error w' = ChimeWithTranscribe.error w /\
  ChimeWithTranscribe.meetingSession w' = Some session /\
  startRequested (ChimeWithTranscribe.conference w') = true /\
  observed (ChimeWithTranscribe.conference w') = true.
Proof.
  intros Hprov Hbind Hsub Hstart s' w'. subst s' w'.
  setup. rewrite Hsub, Hstart in *.
  execute; simplify_eq.
  all: try (specialize (Hbind eq_refl); congruence).
  all: repeat split.
Qed.

(** X12. The microphone kept for the transcription is the first device of
    the list, and it is kept only once the SDK has accepted it.  Starting
    with no microphone in state, [setupChime] of the transcription variant
    ends with [microphoneDeviceId] equal to [d] exactly when the
    provisioning stage built a session, the audio element (if any) was
    bound, the list of input devices is not empty, [d] is the id of its
    first entry and [startAudioInput(d)] did not reject; the SDK was then
    given the same device. *)
Theorem microphone_is_the_first_device_accepted
    (sdk : ChimeSDK) (fetched : Result Response) (audioElement : bool)
    (w : ChimeWithTranscribe.World) (d : string) :
  ChimeWithTranscribe.microphoneDeviceId w = None ->
  let w' := (ChimeWithTranscribe.setupChime JSON_parse sdk fetched audioElement w).2 in
  (ChimeWithTranscribe.microphoneDeviceId w' = Some d <->
   exists session first rest,
     provisioning JSON_parse sdk fetched = Ok session /\
     (audioElement = true -> bindAudioElement sdk = None) /\
     listAudioInputDevices sdk = Ok (first :: rest) /\
     deviceId first = d /\
     selectAudioInput sdk d = None) /\
  (ChimeWithTranscribe.microphoneDeviceId w' = Some d ->
   audioInput (ChimeWithTranscribe.conference w') = Some d).
Proof.
  intros Hnone w'. subst w'. setup.
  execute; simplify_eq.
  all: split;
    [ split;
      [ intros H; try congruence; simplify_eq;
        do 3 eexists; repeat split; try reflexivity; try eassumption; congruence
      | intros (session & first & rest & H1 & H2 & H3 & H4 & H5);
        try specialize (H2 eq_refl); simplify_eq; congruence ]
    | intros H; try congruence; simplify_eq; reflexivity ].
Qed.

(** X13. A failure after the session was built surfaces the error and leaves
    the session installed.  When the provisioning stage has built the
    session and the binding of the audio element rejects, [setupChime], in
    both components, ends with the message of the rejection as the error,
    the loading ended and the session installed, and with nothing else done:
    no device is selected, no microphone is kept, no observer is registered,
    the conference is not started and no timer is armed. *)
Theorem bind_failure_keeps_the_session
    (sdk : ChimeSDK) (fetched : Result Response) (session : MeetingSession) (e : Exn)
    (s : ChimeDemo.State) (w : ChimeWithTranscribe.World) :
  provisioning JSON_parse sdk fetched = Ok session ->
  bindAudioElement sdk = Some e ->
  ChimeDemo.setupChime JSON_parse sdk fetched true s =
    (Ok tt,
     ChimeDemo.setIsLoading false
       (ChimeDemo.setError (Some (message_or_unknown e))
          (ChimeDemo.print LError "❌ Error setting up audio:" (ArgExn e)
             (ChimeDemo.setMeetingSession (Some session) (ChimeDemo.setIsLoading true s))))) /\
  ChimeWithTranscribe.setupChime JSON_parse sdk fetched true w =
    (Ok tt,
     ChimeWithTranscribe.setIsLoading false
       (ChimeWithTranscribe.setError (Some (message_or_unknown e))
          (ChimeWithTranscribe.print LError "❌ Setup error:" (ArgExn e)
             (ChimeWithTranscribe.setMeetingSession (Some session)
                (ChimeWithTranscribe.setIsLoading true w))))).
Proof.
  intros Hprov Hbind. setup. eff. rewrite Hbind. cbn.
  destruct fetched as [response|]; [|discriminate].
  destruct (negb (ok response)); [discriminate|]. cbn in *.
  destruct (JSON_parse (body response)) as [data|]; [|discriminate]. cbn in *.
  destruct (get data "meetingResponse") as [m|]; [|discriminate]. cbn in *.
  destruct (get data "attendeeResponse") as [a|]; [|discriminate]. cbn in *.
  destruct (new_ConsoleLogger sdk); [discriminate|].
  destruct (new_DefaultDeviceController sdk); [discriminate|].
  destruct (new_MeetingSessionConfiguration sdk m a); [discriminate|].
  destruct (new_DefaultMeetingSession sdk _); [discriminate|].
  injection Hprov as <-. split; reflexivity.
Qed.

Lemma transcription_variant_starts_without_error
    (sdk : ChimeSDK) (fetched : Result Response) (audioElement : bool) :
  let w' :=
    (ChimeWithTranscribe.setupChime JSON_parse sdk fetched audioElement
       ChimeWithTranscribe.initial).2 in
  startRequested (ChimeWithTranscribe.conference w') = true <->
  ChimeWithTranscribe.error w' = None.
Proof.
  intros w'. subst w'. setup.
  execute; simplify_eq.
  all: split; try congruence; try discriminate.
Qed.

Lemma ChimeDemo_arms_without_error
    (sdk : ChimeSDK) (fetched : Result Response) (audioElement : bool) :
  let s' := (ChimeDemo.setupChime JSON_parse sdk fetched audioElement ChimeDemo.initial).2 in
  startRequested (ChimeDemo.conference s') = false /\
  (ChimeDemo.startTimerArmed s' = true <-> ChimeDemo.error s' = None).
Proof.
  intros s'. subst s'. setup.
  execute; simplify_eq.
  all: repeat split; try congruence; try discriminate.
Qed.

Lemma startTimer_fires (sdk : ChimeSDK) (s : ChimeDemo.State) :
  (ChimeDemo.startTimer sdk s).1 = Ok tt /\
  (audioVideo_start sdk = None ->
   startRequested (ChimeDemo.conference (ChimeDemo.startTimer sdk s).2) = true /\
   ChimeDemo.error (ChimeDemo.startTimer sdk s).2 = ChimeDemo.error s) /\
  (forall e, audioVideo_start sdk = Some e ->
   startRequested (ChimeDemo.conference (ChimeDemo.startTimer sdk s).2) =
     startRequested (ChimeDemo.conference s) /\
   ChimeDemo.error (ChimeDemo.startTimer sdk s).2 = Some "Failed to start audio session").
Proof.
  unfold ChimeDemo.startTimer. eff.
  destruct (audioVideo_start sdk); cbn; repeat split; try congruence; try discriminate.
Qed.

(** X14. The conference is started exactly when the setup surfaces no error.
    From the first render, the transcription variant has asked the
    conference to start at the end of [setupChime] if and only if the error
    state is still null; src/ChimeDemo.tsx never starts the conference in
    [setupChime] itself and has armed its start timer if and only if the
    error state is still null.  When that timer fires, the conference is
    started, and a start that throws sets the error to 'Failed to start
    audio session' whatever was thrown. *)
Theorem conference_starts_exactly_without_error
    (sdk : ChimeSDK) (fetched : Result Response) (audioElement : bool) :
  let w' :=
    (ChimeWithTranscribe.setupChime JSON_parse sdk fetched audioElement
       ChimeWithTranscribe.initial).2 in
  let s' := (ChimeDemo.setupChime JSON_parse sdk fetched audioElement ChimeDemo.initial).2 in
  let fired := ChimeDemo.startTimer sdk s' in
  (startRequested (ChimeWithTranscribe.conference w') = true <->
   ChimeWithTranscribe.error w' = None) /\
  startRequested (ChimeDemo.conference s') = false /\
  (ChimeDemo.startTimerArmed s' = true <-> ChimeDemo.error s' = None) /\
  fired.1 = Ok tt /\
  (audioVideo_start sdk = None ->
   startRequested (ChimeDemo.conference fired.2) = true /\
   ChimeDemo.error fired.2 = ChimeDemo.error s') /\
  (forall e, audioVideo_start sdk = Some e ->
   startRequested (ChimeDemo.conference fired.2) = false /\
   ChimeDemo.error fired.2 = Some "Failed to start audio session").
Proof.
  intros w' s' fired.
  pose proof (transcription_variant_starts_without_error sdk fetched audioElement) as Hfull.
  destruct (ChimeDemo_arms_without_error sdk fetched audioElement) as (Hnot & Harmed).
  destruct (startTimer_fires sdk s') as (Hok & Hstart & Hfail).
  split; [exact Hfull|]. split; [exact Hnot|]. split; [exact Harmed|].
  split; [exact Hok|]. split; [exact Hstart|].
  intros e He. destruct (Hfail e He) as (H1 & H2).
  split; [|exact H2]. subst fired. rewrite H1. exact Hnot.
Qed.

(** X15. An error surfaced by the setup is never the empty string, which
    the component would render as no error at all: [setupChime], in both
    components, either leaves the error state as it was or sets it to a
    message that is not empty. *)
Theorem surfaced_setup_error_is_not_empty
    (sdk : ChimeSDK) (fetched : Result Response) (audioElement : bool)
    (s : ChimeDemo.State) (w : ChimeWithTranscribe.World) :
  let s' := (ChimeDemo.setupChime JSON_parse sdk fetched audioElement s).2 in
  let w' := (ChimeWithTranscribe.setupChime JSON_parse sdk fetched audioElement w).2 in
  (ChimeDemo.error s' = ChimeDemo.error s \/
   exists message, ChimeDemo.error s' = Some message /\ message <> "") /\
  (ChimeWithTranscribe.error w' = ChimeWithTranscribe.error w \/
   exists message, ChimeWithTranscribe.error w' = Some message /\ message <> "").
Proof.
  intros s' w'. subst s' w'.
  assert (Hdemo : Eff.keeps
            (fun s' => ChimeDemo.error s' = ChimeDemo.error s \/
                       exists message, ChimeDemo.error s' = Some message /\ message <> "")
            (ChimeDemo.setupChime JSON_parse sdk fetched audioElement)).
  { unfold ChimeDemo.setupChime, ChimeDemo.selectFirst. keeps.
    apply EffFacts.keeps_modify. intros s0 _. right.
    eexists. split; [reflexivity | apply message_or_unknown_nonempty]. }
  assert (Hfull : Eff.keeps
            (fun w' => ChimeWithTranscribe.error w' = ChimeWithTranscribe.error w \/
                       exists message,
                         ChimeWithTranscribe.error w' = Some message /\ message <> "")
            (ChimeWithTranscribe.setupChime JSON_parse sdk fetched audioElement)).
  { unfold ChimeWithTranscribe.setupChime, ChimeWithTranscribe.selectFirst. keeps.
    apply EffFacts.keeps_modify. intros w0 _. right.
    eexists. split; [reflexivity | apply message_or_unknown_nonempty]. }
  split; [apply Hdemo | apply Hfull]; now left.
Qed.

End Setup.

(** X16. The cleanup of the effect never throws, whatever session it
    captured and whether or not [audioVideo.stop()] throws: in
    src/ChimeDemo.tsx it writes nothing but the console; in the
    transcription variant it then stops the transcription (the socket ref is
    empty and the transcribing flag off afterwards, the transcripts are
    kept).  With the value the effect captures, the [null] of the first
    render, it does not reach the session at all: the unmount of
    src/ChimeDemo.tsx changes nothing, that of the transcription variant is
    [stopTranscription] and no more. *)
Theorem cleanup_never_throws
    (captured : option MeetingSession) (audioVideo_stop : option Exn)
    (s : ChimeDemo.State) (w : ChimeWithTranscribe.World) :
  (exists s',
     Teardown.ChimeDemo_cleanup captured audioVideo_stop s = (Ok tt, s') /\
     ChimeDemo.meetingSession s' = ChimeDemo.meetingSession s /\
     ChimeDemo.isConnected s' = ChimeDemo.isConnected s /\
     ChimeDemo.error s' = ChimeDemo.error s /\
     ChimeDemo.conference s' = ChimeDemo.conference s) /\
  (exists w',
     Teardown.cleanup captured audioVideo_stop w = (Ok tt, w') /\
     ChimeWithTranscribe.webSocket w' = None /\
     ChimeWithTranscribe.isTranscribing w' = false /\
     ChimeWithTranscribe.transcripts w' = ChimeWithTranscribe.transcripts w /\
     ChimeWithTranscribe.isConnected w' = ChimeWithTranscribe.isConnected w /\
     ChimeWithTranscribe.error w' = ChimeWithTranscribe.error w) /\
  Teardown.ChimeDemo_unmount audioVideo_stop s = (Ok tt, s) /\
  Teardown.unmount audioVideo_stop w = ChimeWithTranscribe.stopTranscription w.
Proof.
  split; [|split; [|split]].
  - unfold Teardown.ChimeDemo_cleanup. eff.
    destruct captured, audioVideo_stop; cbn; eexists; (split; [reflexivity|]); repeat split.
  - unfold Teardown.cleanup. eff.
    destruct captured, audioVideo_stop; cbn;
      match goal with
      | |- context [ChimeWithTranscribe.stopTranscription ?x] =>
          destruct (Lifecycle.stopTranscription_frame x) as (w' & Hrun & Href & Hflag & Hw')
      end;
      rewrite Hrun; exists w'; (split; [reflexivity|]);
      (split; [exact Href|]); (split; [exact Hflag|]);
      rewrite Hw'; cbn; repeat split.
  - reflexivity.
  - unfold Teardown.unmount, Teardown.cleanup. eff. reflexivity.
Qed.

Lemma device_failures_do_not_fail_the_setup_witness :
  let session := mkSession (mkConfiguration (JObject []) (JObject [])) in
  provisioning Fixture.JSON_parse Scenario.deviceless Scenario.credentials = Ok session /\
  (true = true -> bindAudioElement Scenario.deviceless = None) /\
  subscribeToActiveSpeakerDetector Scenario.deviceless = None /\
  audioVideo_start Scenario.deviceless = None /\
  ChimeDemo.error
    (ChimeDemo.setupChime Fixture.JSON_parse Scenario.deviceless Scenario.credentials true
       ChimeDemo.initial).2 =
  ChimeDemo.error ChimeDemo.initial.
Proof.
  intros session.
  assert (H1 : provisioning Fixture.JSON_parse Scenario.deviceless Scenario.credentials =
               Ok session) by (vm_compute; reflexivity).
  assert (H2 : true = true -> bindAudioElement Scenario.deviceless = None)
    by (intros _; reflexivity).
  assert (H3 : subscribeToActiveSpeakerDetector Scenario.deviceless = None) by reflexivity.
  assert (H4 : audioVideo_start Scenario.deviceless = None) by reflexivity.
  split; [exact H1|]. split; [exact H2|]. split; [exact H3|]. split; [exact H4|].
  exact (proj1 (device_failures_do_not_fail_the_setup Fixture.JSON_parse Scenario.deviceless
                  Scenario.credentials true session ChimeDemo.initial
                  ChimeWithTranscribe.initial H1 H2 H3 H4)).
Defined.

Lemma microphone_is_the_first_device_accepted_witness :
  ChimeWithTranscribe.microphoneDeviceId ChimeWithTranscribe.initial = None /\
  (ChimeWithTranscribe.microphoneDeviceId
     (ChimeWithTranscribe.setupChime Fixture.JSON_parse Fixture.lenient Scenario.credentials
        true ChimeWithTranscribe.initial).2 = Some "mic-1" ->
   audioInput
     (ChimeWithTranscribe.conference
        (ChimeWithTranscribe.setupChime Fixture.JSON_parse Fixture.lenient
           Scenario.credentials true ChimeWithTranscribe.initial).2) = Some "mic-1").
Proof.
  assert (H : ChimeWithTranscribe.microphoneDeviceId ChimeWithTranscribe.initial = None)
    by reflexivity.
  split; [exact H|].
  exact (proj2 (microphone_is_the_first_device_accepted Fixture.JSON_parse Fixture.lenient
                  Scenario.credentials true ChimeWithTranscribe.initial "mic-1" H)).
Defined.

Lemma bind_failure_keeps_the_session_witness :
  let session := mkSession (mkConfiguration (JObject []) (JObject [])) in
  let e := mkExn "Error" "Failed to bind audio element" in
  provisioning Fixture.JSON_parse Scenario.mute Scenario.credentials = Ok session /\
  bindAudioElement Scenario.mute = Some e /\
  ChimeDemo.setupChime Fixture.JSON_parse Scenario.mute Scenario.credentials true
    ChimeDemo.initial =
  (Ok tt,
   ChimeDemo.setIsLoading false
     (ChimeDemo.setError (Some (message_or_unknown e))
        (ChimeDemo.print LError "❌ Error setting up audio:" (ArgExn e)
           (ChimeDemo.setMeetingSession (Some session)
              (ChimeDemo.setIsLoading true ChimeDemo.initial))))).
Proof.
  intros session e.
  assert (H1 : provisioning Fixture.JSON_parse Scenario.mute Scenario.credentials = Ok session)
    by (vm_compute; reflexivity).
  assert (H2 : bindAudioElement Scenario.mute = Some e) by reflexivity.
  split; [exact H1|]. split; [exact H2|].
  exact (proj1 (bind_failure_keeps_the_session Fixture.JSON_parse Scenario.mute
                  Scenario.credentials session e ChimeDemo.initial ChimeWithTranscribe.initial
                  H1 H2)).
Defined.

End SetupFacts.

(** ** Transcript messages of any shape *)

Module Shapes.
Import ChimeWithTranscribe.

Section Handler.

Variable JSON_parse : string -> Result JSValue.

(** X18. A transcript message is final unless its [isPartial] is truthy.
    For every message that parses to a value whose [type] is 'transcript',
    whatever else it holds: the handler returns, the value of [transcript]
    (be it [undefined]) becomes the current transcript, and it is appended
    to the history exactly when [isPartial] is falsy: [false], but also
    missing, [null], [0] or the empty string. *)
Theorem transcript_is_final_unless_partial_is_truthy (m : string) (data : JSValue) (w : World) :
  JSON_parse m = Ok data ->
  get data "type" = Ok (JString "transcript") ->
  exists isPartial transcript,
    get data "isPartial" = Ok isPartial /\
    get data "transcript" = Ok transcript /\
    onmessage JSON_parse m w =
      (Ok tt,
       setLatestTranscript transcript
         (if truthy isPartial then w
          else setTranscripts (fun prev => prev ++ [transcript]) w)).
Proof.
  intros Hparse Htype.
  destruct data as [| | | | |items|fields]; try discriminate.
  exists (default JUndefined (assoc "isPartial" fields)),
         (default JUndefined (assoc "transcript" fields)).
  split; [reflexivity|]. split; [reflexivity|].
  unfold onmessage. eff. rewrite Hparse, Htype. cbn.
  now destruct (truthy (default JUndefined (assoc "isPartial" fields))).
Qed.

End Handler.

(** A message with only its type: [isPartial] is missing, so the message is
    final, and its missing text is what is appended. *)
Lemma transcript_is_final_unless_partial_is_truthy_witness :
  let data := JObject [("type", JString "transcript")] in
  Fixture.JSON_parse Fixture.bare_transcript_text = Ok data /\
  get data "type" = Ok (JString "transcript") /\
  exists isPartial transcript,
    get data "isPartial" = Ok isPartial /\
    get data "transcript" = Ok transcript /\
    onmessage Fixture.JSON_parse Fixture.bare_transcript_text Fixture.connected =
      (Ok tt,
       setLatestTranscript transcript
         (if truthy isPartial then Fixture.connected
          else setTranscripts (fun prev => prev ++ [transcript]) Fixture.connected)).
Proof.
  intros data.
  assert (H1 : Fixture.JSON_parse Fixture.bare_transcript_text = Ok data)
    by (vm_compute; reflexivity).
  assert (H2 : get data "type" = Ok (JString "transcript")) by reflexivity.
  split; [exact H1|]. split; [exact H2|].
  exact (transcript_is_final_unless_partial_is_truthy Fixture.JSON_parse
           Fixture.bare_transcript_text data Fixture.connected H1 H2).
Defined.

End Shapes.
